(** * WeV: the sensor-to-rig pipeline

    A shallow embedding of the tracking hook ([useFaceTracking]), the audio
    hook ([useAudioLipSync]), its consumer in [UIControls] and the render
    loop of [AvatarCanvas], followed by the properties the specification
    states about them.

    Numbers.  JavaScript numbers are modelled as mathematical numbers: the
    frame counter as [N], every other quantity as a real.  [NaN] and the
    infinities have no counterpart in [R]; the two places where the code can
    produce one (an empty spectrum buffer, a zero clock delta) are guarded
    explicitly: the first by a hypothesis on the buffer, the second by the
    [Fps] type.

    Effects.  Callbacks and calls on external collaborators (the solver, the
    rig, the frame-rate observer, the console) are recorded as traces; refs
    and React state cells are fields of explicit state records. *)

From Stdlib Require Import Reals Lra Lia ZArith List Strings.Byte.
From stdpp Require Import gmap strings.
Import ListNotations.

(** ** The fragment of [Math] the pipeline uses *)

Module JsMath.

Definition Math_max (a b : R) : R := Rmax a b.

Definition Math_min (a b : R) : R := Rmin a b.

(** [Math.pow x y] on the domain the estimator uses: a base [x >= 0] and a
    positive exponent.  [Math.pow 0 y] is [0]; [Rpower] alone would give [1]
    there. *)
Definition Math_pow (x y : R) : R :=
  if Rlt_dec 0 x then Rpower x y else 0%R.

(** [Math.round]: the nearest integer, halves going up. *)
Definition Math_round (x : R) : Z := Zfloor (x + / 2).

(** [a > b] as a branch condition. *)
Definition gt (a b : R) : bool := if Rlt_dec b a then true else false.

(** [x || 0] on numbers: [0] is the only falsy real. *)
Definition orZero (x : R) : R := if Req_dec_T x 0 then 0%R else x.

(** [THREE.MathUtils.degToRad]: [degrees * DEG2RAD] with
    [DEG2RAD = Math.PI / 180]. *)
Definition DEG2RAD : R := (PI / 180)%R.

Definition degToRad (degrees : R) : R := (degrees * DEG2RAD)%R.

End JsMath.

(** ** Audio Envelope Estimator: [useAudioLipSync] *)

Module AudioLipSync.
Import JsMath.

Record AudioLipSyncData := mkAudioLipSyncData {
  volume : R;
  visemeA : R;
  visemeI : R;
  visemeU : R;
  visemeE : R;
  visemeO : R
}.

(** The analyser node, reduced to the spectrum snapshot it currently holds:
    one byte per frequency bin. *)
Record AnalyserNode := mkAnalyserNode { frequencyData : list byte }.

(** [analyser.getByteFrequencyData(array)]: overwrites the array with the
    snapshot, bin by bin; the array keeps its length. *)
Definition getByteFrequencyData (analyser : AnalyserNode) (array : list byte)
  : list byte :=
  firstn (length array) (frequencyData analyser)
  ++ skipn (length (frequencyData analyser)) array.

Record Refs := mkRefs {
  analyserRef : option AnalyserNode;
  dataArrayRef : option (list byte)
}.

Definition byteValue (value : byte) : R := IZR (Z.of_N (Byte.to_N value)).

(** [let sum = 0; for (const value of data) sum += value]. *)
Definition sumOf (data : list byte) : R :=
  fold_left (fun sum value => (sum + byteValue value)%R) data 0%R.

Definition averageVolume (data : list byte) : R :=
  (sumOf data / INR (length data))%R.

Definition normalizedVolume (data : list byte) : R :=
  (averageVolume data / 255)%R.

(** The sample built from [volume = normalizedVolume]. *)
Definition lipSyncData (vol : R) : AudioLipSyncData :=
  let volumeSmoothed := Math_pow vol 0.7 in
  {| volume := volumeSmoothed;
     visemeA := if gt volumeSmoothed 0.1 then (volumeSmoothed * 0.8)%R else 0%R;
     visemeI := if gt volumeSmoothed 0.05 then (volumeSmoothed * 0.6)%R else 0%R;
     visemeU := if gt volumeSmoothed 0.03 then (volumeSmoothed * 0.4)%R else 0%R;
     visemeE := if gt volumeSmoothed 0.07 then (volumeSmoothed * 0.5)%R else 0%R;
     visemeO := if gt volumeSmoothed 0.04 then (volumeSmoothed * 0.7)%R else 0%R |}.

(** One run of [analyzeAudio]: the refreshed buffer and the argument of the
    [onUpdate] call, or [None] when the guard returns early.  Rescheduling
    ([requestAnimationFrame] then [setTimeout 33]) is left to the caller. *)
Definition analyzeAudio (refs : Refs) (enabled : bool)
  : option (list byte * AudioLipSyncData) :=
  match analyserRef refs, dataArrayRef refs with
  | Some analyser, Some array =>
      if enabled then
        let data := getByteFrequencyData analyser array in
        Some (data, lipSyncData (normalizedVolume data))
      else None
  | _, _ => None
  end.

End AudioLipSync.

(** ** Shared data: the face-tracking sample *)

Module XYZ.

Record t := mk { x : R; y : R; z : R }.

Definition zero : t := mk 0 0 0.

End XYZ.

Record FaceTrackingData := mkFaceTrackingData {
  isActive : bool;
  blendShapes : list (string * R);   (* own properties, in insertion order *)
  rotation : XYZ.t;
  position : XYZ.t
}.

(** ** Frame Decimator and tracking boundary: [useFaceTracking] *)

Module FaceTracking.
Import JsMath.

(** The part of Kalidokit's [TFace] the hook reads. *)
Record Eye := mkEye { l : R; r : R }.
Record Pupil := mkPupil { pupil_x : R; pupil_y : R }.
Record MouthShape := mkMouthShape { A : R; I : R; O : R; U : R }.
Record Mouth := mkMouth { shape : MouthShape }.
Record Head := mkHead { degrees : XYZ.t; head_position : XYZ.t }.
Record TFace := mkTFace {
  eye : Eye;
  pupil : Pupil;
  mouth : Mouth;
  brow : R;
  head : Head
}.

Definition NormalizedLandmarkList := list XYZ.t.

Record Results := mkResults {
  multiFaceLandmarks : option (list NormalizedLandmarkList)
}.

(** What one call of [Face.solve] does: return a face, return [undefined],
    or throw. *)
Inductive SolveOutcome :=
| Returned (face : option TFace)
| Threw.

Inductive Event :=
| FaceSolve (landmarks : NormalizedLandmarkList)
| ConsoleWarn
| OnUpdate (data : FaceTrackingData).

Record State := mkState {
  frameCountRef : N;
  isTracking : bool
}.

(** [useRef<number>(0)], [useState(false)]. *)
Definition initialState : State := mkState 0 false.

Definition trackingData (face : TFace) : FaceTrackingData :=
  {| isActive := true;
     blendShapes :=
       [ ("eyeBlinkLeft", orZero (l (eye face)));
         ("eyeBlinkRight", orZero (r (eye face)));
         ("eyeLookUpLeft", Math_max 0 (orZero (pupil_y (pupil face))));
         ("eyeLookUpRight", Math_max 0 (orZero (pupil_y (pupil face))));
         ("eyeLookDownLeft", Math_max 0 (- orZero (pupil_y (pupil face))));
         ("eyeLookDownRight", Math_max 0 (- orZero (pupil_y (pupil face))));
         ("eyeLookInLeft", Math_max 0 (orZero (pupil_x (pupil face))));
         ("eyeLookInRight", Math_max 0 (- orZero (pupil_x (pupil face))));
         ("eyeLookOutLeft", Math_max 0 (- orZero (pupil_x (pupil face))));
         ("eyeLookOutRight", Math_max 0 (orZero (pupil_x (pupil face))));
         ("mouthOpen", orZero (A (shape (mouth face))));
         ("mouthSmileLeft", orZero (I (shape (mouth face))));
         ("mouthSmileRight", orZero (I (shape (mouth face))));
         ("mouthFunnel", orZero (O (shape (mouth face))));
         ("mouthPucker", orZero (U (shape (mouth face))));
         ("browDownLeft", Math_max 0 (- orZero (brow face)));
         ("browDownRight", Math_max 0 (- orZero (brow face)));
         ("browUpCenter", Math_max 0 (orZero (brow face)));
         ("browUpLeft", Math_max 0 (orZero (brow face)));
         ("browUpRight", Math_max 0 (orZero (brow face))) ];
     rotation :=
       XYZ.mk (orZero (XYZ.x (degrees (head face))))
              (orZero (XYZ.y (degrees (head face))))
              (orZero (XYZ.z (degrees (head face))));
     position :=
       XYZ.mk (orZero (XYZ.x (head_position (head face))))
              (orZero (XYZ.y (head_position (head face))))
              (orZero (XYZ.z (head_position (head face)))) |}.

(** The literal both degraded branches pass to [onUpdate]. *)
Definition inactiveData : FaceTrackingData :=
  {| isActive := false;
     blendShapes := [];
     rotation := XYZ.mk 0 0 0;
     position := XYZ.mk 0 0 0 |}.

Section Hook.

(** [Face.solve], an external collaborator. *)
Variable solve : NormalizedLandmarkList -> SolveOutcome.

(** Whether the hook was given an [onUpdate] callback. *)
Variable onUpdate : bool.

(** [onUpdate?.(data)]. *)
Definition callOnUpdate (data : FaceTrackingData) : list Event :=
  if onUpdate then [OnUpdate data] else [].

(** The callback registered with [faceMesh.onResults].  The second component
    is [None] when the decimation test returns early, and otherwise the calls
    made on the collaborators, in order. *)
Definition onResults (st : State) (results : Results)
  : State * option (list Event) :=
  let frameCount := (frameCountRef st + 1)%N in
  if negb (frameCount mod 3 =? 0)%N then
    (mkState frameCount (isTracking st), None)
  else
    match multiFaceLandmarks results with
    | Some (landmarks :: _) =>
        match solve landmarks with
        | Returned (Some face) =>
            (mkState frameCount true,
             Some (FaceSolve landmarks :: callOnUpdate (trackingData face)))
        | Returned None =>
            (mkState frameCount (isTracking st), Some [FaceSolve landmarks])
        | Threw =>
            (mkState frameCount false,
             Some (FaceSolve landmarks :: ConsoleWarn :: callOnUpdate inactiveData))
        end
    | _ =>
        (mkState frameCount false, Some (callOnUpdate inactiveData))
    end.

(** The camera delivers one result per frame; [run] feeds a sequence of them
    through the callback and keeps what each one caused. *)
Fixpoint run (st : State) (frames : list Results) : list (option (list Event)) :=
  match frames with
  | [] => []
  | results :: rest =>
      let '(st', out) := onResults st results in
      out :: run st' rest
  end.

End Hook.

(** Positions, counted from [first], of the frames that got past the
    decimation test. *)
Fixpoint forwardedFrom (first : nat) (outs : list (option (list Event)))
  : list nat :=
  match outs with
  | [] => []
  | None :: rest => forwardedFrom (S first) rest
  | Some _ :: rest => first :: forwardedFrom (S first) rest
  end.

Definition forwardedPositions (outs : list (option (list Event))) : list nat :=
  forwardedFrom 1 outs.

Definition isFaceSolve (e : Event) : bool :=
  match e with FaceSolve _ => true | _ => false end.

(** Positions of the frames on which [Face.solve] was invoked. *)
Fixpoint solvedFrom (first : nat) (outs : list (option (list Event)))
  : list nat :=
  match outs with
  | [] => []
  | out :: rest =>
      match out with
      | Some evs =>
          if existsb isFaceSolve evs then first :: solvedFrom (S first) rest
          else solvedFrom (S first) rest
      | None => solvedFrom (S first) rest
      end
  end.

Definition solvedPositions (outs : list (option (list Event))) : list nat :=
  solvedFrom 1 outs.

(** A result that shows at least one face. *)
Definition hasFace (results : Results) : bool :=
  match multiFaceLandmarks results with
  | Some (_ :: _) => true
  | _ => false
  end.

(** Every sample handed to [onUpdate] during a run. *)
Definition emittedBy (evs : list Event) : list FaceTrackingData :=
  flat_map (fun e => match e with OnUpdate d => [d] | _ => [] end) evs.

Definition emitted (outs : list (option (list Event))) : list FaceTrackingData :=
  flat_map (fun out => match out with Some evs => emittedBy evs | None => [] end) outs.

(** The invariant of a tracking sample. *)
Definition sampleInvariant (d : FaceTrackingData) : Prop :=
  isActive d = false ->
  blendShapes d = [] /\ rotation d = XYZ.zero /\ position d = XYZ.zero.

(** The two shapes in which a sample leaves the hook. *)
Definition producedShape (d : FaceTrackingData) : Prop :=
  (exists face, d = trackingData face) \/ d = inactiveData.

End FaceTracking.

(** ** The target rig: the part of [@pixiv/three-vrm] the applier calls

    The rig is an external collaborator.  The model keeps what the applier
    can observe or change: named expression channels holding a weight, named
    bone nodes holding a rotation, an animation state advanced by [update].
    A [setValue] on a name the manager does not hold changes nothing; whether
    it returns or throws is left open ([throwsOnUnknown]), since the applier
    wraps the call in [try]/[catch]. *)

Module Rig.

(** The first argument of a [setValue] call: the string found in the
    mapping table, or a built-in inherited from [Object.prototype] (see
    [Avatar.mapToVRMBlendShape]), which names no channel. *)
Inductive Key :=
| Name (s : string)
| Builtin (member : string).

Inductive Call :=
| SetValue (name : Key) (weight : R)
| SetHeadRotationX (angle : R)
| SetHeadRotationY (angle : R)
| SetHeadRotationZ (angle : R)
| Update (delta : R).

Record VRMExpressionManager := mkExpressionManager {
  weights : gmap string R;
  throwsOnUnknown : bool
}.

Record VRMHumanoid := mkHumanoid {
  normalizedBones : gmap string XYZ.t      (* rotation of each bone node *)
}.

Record VRM := mkVRM {
  expressionManager : option VRMExpressionManager;
  humanoid : option VRMHumanoid;
  animationTime : R;                       (* advanced by [update] *)
  calls : list Call                        (* every call made, oldest first *)
}.

Inductive Outcome (T : Type) :=
| Done (value : T)
| Thrown.
Arguments Done {T} _.
Arguments Thrown {T}.

Definition setValue (em : VRMExpressionManager) (name : Key) (weight : R)
  : Outcome VRMExpressionManager :=
  match name with
  | Name s =>
      match weights em !! s with
      | Some _ => Done (mkExpressionManager (<[s := weight]> (weights em))
                                            (throwsOnUnknown em))
      | None => if throwsOnUnknown em then Thrown else Done em
      end
  | Builtin _ => if throwsOnUnknown em then Thrown else Done em
  end.

Definition getNormalizedBoneNode (h : VRMHumanoid) (name : string)
  : option XYZ.t :=
  normalizedBones h !! name.

Definition setNormalizedBoneNode (h : VRMHumanoid) (name : string)
  (rot : XYZ.t) : VRMHumanoid :=
  mkHumanoid (<[name := rot]> (normalizedBones h)).

Definition logged (vrm : VRM) (c : Call) : VRM :=
  mkVRM (expressionManager vrm) (humanoid vrm) (animationTime vrm)
        (calls vrm ++ [c]).

Definition update (vrm : VRM) (delta : R) : VRM :=
  logged (mkVRM (expressionManager vrm) (humanoid vrm)
                (animationTime vrm + delta) (calls vrm))
         (Update delta).

(** The weight a channel holds, if the rig has that channel. *)
Definition weightOf (vrm : VRM) (channel : string) : option R :=
  match expressionManager vrm with
  | Some em => weights em !! channel
  | None => None
  end.

Definition boneRotation (vrm : VRM) (bone : string) : option XYZ.t :=
  match humanoid vrm with
  | Some h => normalizedBones h !! bone
  | None => None
  end.

Definition isSetValue (c : Call) : bool :=
  match c with SetValue _ _ => true | _ => false end.

Definition isHeadRotation (c : Call) : bool :=
  match c with
  | SetHeadRotationX _ | SetHeadRotationY _ | SetHeadRotationZ _ => true
  | _ => false
  end.

End Rig.

(** ** [THREE.Clock] *)

Module Clock.

Record t := mk {
  autoStart : bool;
  running : bool;
  oldTime : R;         (* milliseconds *)
  elapsedTime : R      (* seconds *)
}.

(** [new THREE.Clock()]. *)
Definition create : t := mk true false 0 0.

(** [getDelta], with [now] the reading of the timer at the call. *)
Definition getDelta (c : t) (now : R) : R * t :=
  if autoStart c && negb (running c) then
    (0%R, mk (autoStart c) true now 0)
  else if running c then
    let diff := ((now - oldTime c) / 1000)%R in
    (diff, mk (autoStart c) true now (elapsedTime c + diff))
  else (0%R, c).

End Clock.

(** ** Rig Applier and render loop: [AvatarCanvas] *)

Module Avatar.
Import JsMath Rig.

(** The object literal inside [mapToVRMBlendShape], entry by entry. *)
Definition mapping : list (string * string) :=
  [ ("eyeBlinkLeft", "blinkLeft");
    ("eyeBlinkRight", "blinkRight");
    ("eyeLookUpLeft", "lookUp");
    ("eyeLookUpRight", "lookUp");
    ("eyeLookDownLeft", "lookDown");
    ("eyeLookDownRight", "lookDown");
    ("eyeLookInLeft", "lookLeft");
    ("eyeLookInRight", "lookRight");
    ("eyeLookOutLeft", "lookRight");
    ("eyeLookOutRight", "lookLeft");
    ("mouthOpen", "aa");
    ("mouthSmileLeft", "joy");
    ("mouthSmileRight", "joy");
    ("mouthFunnel", "oh");
    ("mouthPucker", "ou");
    ("browDownLeft", "angry");
    ("browDownRight", "angry");
    ("browUpCenter", "surprised");
    ("browUpLeft", "surprised");
    ("browUpRight", "surprised") ].

(** What an object literal inherits from [Object.prototype].  A property
    read with one of these names finds a built-in, which is truthy. *)
Definition inherited : list string :=
  [ "constructor"; "__proto__"; "hasOwnProperty"; "isPrototypeOf";
    "propertyIsEnumerable"; "toLocaleString"; "toString"; "valueOf";
    "__defineGetter__"; "__defineSetter__"; "__lookupGetter__";
    "__lookupSetter__" ].

Fixpoint ownProperty (entries : list (string * string)) (key : string)
  : option string :=
  match entries with
  | [] => None
  | (k, v) :: rest => if String.eqb k key then Some v else ownProperty rest key
  end.

(** [mapping[shapeName] || null]. *)
Definition mapToVRMBlendShape (shapeName : string) : option Key :=
  match ownProperty mapping shapeName with
  | Some target => if String.eqb target "" then None else Some (Name target)
  | None =>
      if existsb (String.eqb shapeName) inherited
      then Some (Builtin shapeName) else None
  end.

(** [Math.max(0, Math.min(1, value))]. *)
Definition clamp01 (value : R) : R := Math_max 0 (Math_min 1 value).

(** The body of the [forEach] callback of [applyBlendShapes]. *)
Definition applyBlendShape (vrm : VRM) (entry : string * R) : VRM :=
  let '(shapeName, value) := entry in
  match mapToVRMBlendShape shapeName, expressionManager vrm with
  | Some vrmBlendShapeName, Some em =>
      let weight := clamp01 value in
      let vrm' := logged vrm (SetValue vrmBlendShapeName weight) in
      match setValue em vrmBlendShapeName weight with
      | Done em' =>
          mkVRM (Some em') (humanoid vrm') (animationTime vrm') (calls vrm')
      | Thrown => vrm'                                   (* caught, ignored *)
      end
  | _, _ => vrm
  end.

Definition applyBlendShapes (vrm : VRM) (blendShapes : list (string * R))
  : VRM :=
  match expressionManager vrm with
  | None => vrm
  | Some _ => fold_left applyBlendShape blendShapes vrm
  end.

Definition applyHeadRotation (vrm : VRM) (rotation : XYZ.t) : VRM :=
  match humanoid vrm with
  | None => vrm
  | Some h =>
      match getNormalizedBoneNode h "head" with
      | Some _ =>
          let rx := degToRad (XYZ.x rotation * 0.5) in
          let ry := degToRad (XYZ.y rotation * 0.5) in
          let rz := degToRad (XYZ.z rotation * 0.5) in
          mkVRM (expressionManager vrm)
                (Some (setNormalizedBoneNode h "head" (XYZ.mk rx ry rz)))
                (animationTime vrm)
                (calls vrm ++ [SetHeadRotationX rx; SetHeadRotationY ry;
                               SetHeadRotationZ rz])
      | None => vrm
      end
  end.

(** The value handed to [onFPSUpdate]: [Math.round(1 / delta)], which is
    [Infinity] on a zero delta. *)
Inductive Fps :=
| Finite (n : Z)
| Infinity.

Definition fpsOfDelta (delta : R) : Fps :=
  if Req_dec_T delta 0 then Infinity else Finite (Math_round (1 / delta)).

Record State := mkState {
  vrmRef : option VRM;
  clockRef : Clock.t;
  statsRef : bool;                               (* a [Stats] panel exists *)
  canRender : bool;                  (* renderer, scene and camera exist *)
  currentTrackingData : option FaceTrackingData;
  fpsUpdates : list Fps;           (* calls of [onFPSUpdate], oldest first *)
  renders : nat                            (* calls of [renderer.render] *)
}.

(** [handleFaceTrackingUpdate]: the tracking cell is replaced wholesale. *)
Definition handleFaceTrackingUpdate (st : State) (data : FaceTrackingData)
  : State :=
  mkState (vrmRef st) (clockRef st) (statsRef st) (canRender st) (Some data)
          (fpsUpdates st) (renders st).

(** The tracking part of a tick, for a loaded rig. *)
Definition applyTracking (vrm : VRM) (data : option FaceTrackingData) : VRM :=
  match data with
  | Some d =>
      if isActive d
      then applyHeadRotation (applyBlendShapes vrm (blendShapes d)) (rotation d)
      else vrm
  | None => vrm
  end.

(** One run of [animate].  [now1] and [now2] are the readings of the timer at
    the first and at the second [getDelta] call of the tick. *)
Definition animate (now1 now2 : R) (st : State) : State :=
  let '(clock1, fps) :=
    if statsRef st then
      let '(delta, c) := Clock.getDelta (clockRef st) now1 in
      (c, fpsUpdates st ++ [fpsOfDelta delta])
    else (clockRef st, fpsUpdates st) in
  let '(deltaTime, clock2) := Clock.getDelta clock1 now2 in
  let vrm' :=
    match vrmRef st with
    | Some vrm => Some (update (applyTracking vrm (currentTrackingData st)) deltaTime)
    | None => None
    end in
  mkState vrm' clock2 (statsRef st) (canRender st) (currentTrackingData st) fps
          (if canRender st then S (renders st) else renders st).

(** The rig calls made since [before]. *)
Definition callsSince (before after : State) : list Call :=
  match vrmRef before, vrmRef after with
  | Some v, Some v' => skipn (length (calls v)) (calls v')
  | None, Some v' => calls v'
  | _, None => []
  end.

End Avatar.

(** ** The consumer of the audio samples: [UIControls] *)

Module UIControls.
Import AudioLipSync.

(** The [onUpdate] passed to [useAudioLipSync]: the sample goes to
    [console.log] and nowhere else. *)
Definition onUpdate (console : list AudioLipSyncData) (data : AudioLipSyncData)
  : list AudioLipSyncData :=
  console ++ [data].

End UIControls.

(** ** The three producers composed: [App] *)

Module App.

Record State := mkState {
  avatar : Avatar.State;
  tracker : FaceTracking.State;
  console : list AudioLipSync.AudioLipSyncData
}.

(** The audio timer fires. *)
Definition audioTick (refs : AudioLipSync.Refs) (enabled : bool) (st : State)
  : State :=
  match AudioLipSync.analyzeAudio refs enabled with
  | Some (_, data) =>
      mkState (avatar st) (tracker st) (UIControls.onUpdate (console st) data)
  | None => st
  end.

(** Deliver the [onUpdate] calls of the tracking hook to the canvas. *)
Definition deliver (a : Avatar.State) (evs : list FaceTracking.Event)
  : Avatar.State :=
  fold_left
    (fun a e =>
       match e with
       | FaceTracking.OnUpdate d => Avatar.handleFaceTrackingUpdate a d
       | _ => a
       end)
    evs a.

(** The face mesh reports on a camera frame. *)
Definition trackingFrame (solve : FaceTracking.NormalizedLandmarkList ->
                                  FaceTracking.SolveOutcome)
  (results : FaceTracking.Results) (st : State) : State :=
  let '(t, out) := FaceTracking.onResults solve true (tracker st) results in
  match out with
  | Some evs => mkState (deliver (avatar st) evs) t (console st)
  | None => mkState (avatar st) t (console st)
  end.

(** The display refresh callback fires. *)
Definition renderTick (now1 now2 : R) (st : State) : State :=
  mkState (Avatar.animate now1 now2 (avatar st)) (tracker st) (console st).

End App.

(** ** The audio hook around [analyzeAudio]: start, stop, toggle *)

Module AudioHook.
Import AudioLipSync.

(** [AudioContext.state]. *)
Inductive ContextState := Running | Suspended | Closed.

(** A media stream, reduced to its identity. *)
Record MediaStream := mkMediaStream { streamId : nat }.

(** The refs and state cells of [useAudioLipSync].  Request ids of
    [requestAnimationFrame] are non-zero, hence truthy. *)
Record Hook := mkHook {
  audioContextRef : option ContextState;
  analyserRef : option AnalyserNode;
  microphoneRef : bool;
  streamRef : option MediaStream;
  animationFrameRef : option positive;
  dataArrayRef : option (list byte);
  isInitialized : bool;
  isActive : bool;
  error : option string
}.

(** Before the first effect runs. *)
Definition initial : Hook :=
  mkHook None None false None None None false false None.

Definition refs (h : Hook) : Refs := mkRefs (analyserRef h) (dataArrayRef h).

Definition fftSize : nat := 256.

(** [analyser.frequencyBinCount]: half the FFT size. *)
Definition frequencyBinCount : nat := fftSize / 2.

(** One firing of [analyzeAudio] inside the hook: the buffer is refreshed,
    the sample goes to [onUpdate], and the next run is requested under the
    id [nextId].  When the guard returns early nothing changes and nothing is
    requested. *)
Definition fire (enabled : bool) (nextId : positive) (h : Hook)
  : Hook * option AudioLipSyncData :=
  match analyzeAudio (refs h) enabled with
  | Some (data, sample) =>
      (mkHook (audioContextRef h) (analyserRef h) (microphoneRef h)
              (streamRef h) (Some nextId) (Some data)
              (isInitialized h) (isActive h) (error h),
       Some sample)
  | None => (h, None)
  end.

(** The microphone delivers a new spectrum to the analyser, if there is one. *)
Definition hear (snapshot : list byte) (h : Hook) : Hook :=
  match analyserRef h with
  | Some _ =>
      mkHook (audioContextRef h) (Some (mkAnalyserNode snapshot))
             (microphoneRef h) (streamRef h) (animationFrameRef h)
             (dataArrayRef h) (isInitialized h) (isActive h) (error h)
  | None => h
  end.

(** The answer of [getUserMedia]: a stream, or a rejection that carries a
    message when it is an [Error]. *)
Inductive MediaAnswer :=
| Granted (stream : MediaStream)
| Rejected (message : option string).

(** [initializeMicrophone].  [snapshot] is the spectrum the new analyser
    holds when [analyzeAudio] is first called. *)
Definition initializeMicrophone (answer : MediaAnswer) (snapshot : list byte)
  (enabled : bool) (nextId : positive) (h : Hook)
  : Hook * option AudioLipSyncData :=
  match answer with
  | Granted stream =>
      fire enabled nextId
        (mkHook (Some Running) (Some (mkAnalyserNode snapshot)) true
                (Some stream) (animationFrameRef h)
                (Some (repeat x00%byte frequencyBinCount))
                true true None)
  | Rejected message =>
      (mkHook (Some Running) (analyserRef h) (microphoneRef h) (streamRef h)
              (animationFrameRef h) (dataArrayRef h)
              (isInitialized h) (isActive h)
              (Some (match message with
                     | Some m => m
                     | None => "Microphone access failed"
                     end)),
       None)
  end.

(** [stop].  Cancelling the frame request, stopping the tracks and closing
    the context act on the browser; the hook forgets the objects. *)
Definition stop (h : Hook) : Hook :=
  mkHook
    (match audioContextRef h with
     | Some Closed => Some Closed
     | _ => None
     end)
    None false None None None false false (error h).


End AudioHook.

(** ** The tracking hook around [onResults]: stop, and the status line *)

Module TrackingHook.

Record Hook := mkHook {
  core : FaceTracking.State;
  cameraRef : bool;                       (* a [Camera] is held *)
  srcObject : bool;                 (* the video element has a stream *)
  isInitialized : bool;
  error : option string
}.

(** [stop] of [useFaceTracking]: the camera and the stream go, both flags
    drop; the frame counter is not touched. *)
Definition stop (h : Hook) : Hook :=
  mkHook (FaceTracking.mkState (FaceTracking.frameCountRef (core h)) false)
         false false false (error h).

(** The status line of [FaceTrackingCanvas]. *)
Inductive Status :=
| ShowError (message : string)
| Initializing
| TrackingActive
| NoFaceDetected.

Definition truthy (s : option string) : option string :=
  match s with
  | Some m => if String.eqb m "" then None else Some m
  | None => None
  end.

Definition status (h : Hook) : Status :=
  match truthy (error h) with
  | Some m => ShowError m
  | None =>
      if negb (isInitialized h) then Initializing
      else if FaceTracking.isTracking (core h) then TrackingActive
      else NoFaceDetected
  end.

(** The border of the preview: green while tracking, orange otherwise. *)
Inductive Border := Green | Orange.

Definition border (h : Hook) : Border :=
  if FaceTracking.isTracking (core h) then Green else Orange.

End TrackingHook.

(** ** Runs of the producers *)

Module Runs.

(** The hook state after a sequence of results. *)
Fixpoint finalState (solve : FaceTracking.NormalizedLandmarkList ->
                             FaceTracking.SolveOutcome)
  (onUpdate : bool) (st : FaceTracking.State)
  (frames : list FaceTracking.Results) : FaceTracking.State :=
  match frames with
  | [] => st
  | results :: rest =>
      finalState solve onUpdate
        (fst (FaceTracking.onResults solve onUpdate st results)) rest
  end.

(** The application after a sequence of camera frames. *)
Definition trackFrames (solve : FaceTracking.NormalizedLandmarkList ->
                                FaceTracking.SolveOutcome)
  (frames : list FaceTracking.Results) (st : App.State) : App.State :=
  fold_left (fun st results => App.trackingFrame solve results st) frames st.

(** The canvas after a sequence of render ticks, each with its two readings
    of the timer. *)
Definition runTicks (ticks : list (R * R)) (st : Avatar.State) : Avatar.State :=
  fold_left (fun st tick => Avatar.animate (fst tick) (snd tick) st) ticks st.

End Runs.

(** ** Vocabulary of the statements *)

Module Spec.

(** A weight [w] derived from the level [s] through an activation threshold
    and a gain. *)
Definition thresholded (s threshold gain w : R) : Prop :=
  (s > threshold -> w = s * gain)%R /\ (s <= threshold -> w = 0)%R.

(** The [setValue] calls a list of source weights stands for: one per entry
    whose name the mapping resolves, in the order of the entries, with the
    weight clamped. *)
Definition setValueCalls (blendShapes : list (string * R)) : list Rig.Call :=
  flat_map
    (fun entry =>
       match Avatar.mapToVRMBlendShape (fst entry) with
       | Some name => [Rig.SetValue name (Avatar.clamp01 (snd entry))]
       | None => []
       end)
    blendShapes.

(** A call that writes a channel or the head bone. *)
Definition isWrite (c : Rig.Call) : Prop :=
  Rig.isSetValue c = true \/ Rig.isHeadRotation c = true.

(** Two rig handles with the same channels, bones and animation state; the
    record of past calls may differ. *)
Definition sameRig (v1 v2 : Rig.VRM) : Prop :=
  Rig.expressionManager v1 = Rig.expressionManager v2 /\
  Rig.humanoid v1 = Rig.humanoid v2 /\
  Rig.animationTime v1 = Rig.animationTime v2.

(** What one entry of a sample does to a channel that holds [w]: an entry
    the table maps to the channel overwrites it. *)
Definition settle (channel : string) (w : R) (entry : string * R) : R :=
  match Avatar.mapToVRMBlendShape (fst entry) with
  | Some (Rig.Name target) =>
      if String.eqb target channel then Avatar.clamp01 (snd entry) else w
  | _ => w
  end.

(** The weight a channel that held [w0] ends up with after the entries of
    a sample were applied in order. *)
Definition settled (channel : string) (blendShapes : list (string * R))
  (w0 : R) : R :=
  fold_left (settle channel) blendShapes w0.

(** The value a sample carries under a name, if any. *)
Fixpoint valueOf (blendShapes : list (string * R)) (name : string) : option R :=
  match blendShapes with
  | [] => None
  | (k, v) :: rest => if String.eqb k name then Some v else valueOf rest name
  end.

Definition isUpdate (c : Rig.Call) : bool :=
  match c with Rig.Update _ => true | _ => false end.

(** Two names of a sample that carry non-negative values of which at most
    one is non-zero. *)
Definition exclusive (blendShapes : list (string * R)) (a b : string) : Prop :=
  exists u d : R,
    valueOf blendShapes a = Some u /\ valueOf blendShapes b = Some d /\
    (0 <= u)%R /\ (0 <= d)%R /\ (u = 0%R \/ d = 0%R).

(** The signal of a solved face that ends up on a channel, before
    clamping. *)
Definition faceValue (face : FaceTracking.TFace) (channel : string) : R :=
  if String.eqb channel "blinkLeft" then FaceTracking.l (FaceTracking.eye face)
  else if String.eqb channel "blinkRight" then FaceTracking.r (FaceTracking.eye face)
  else if String.eqb channel "lookUp" then FaceTracking.pupil_y (FaceTracking.pupil face)
  else if String.eqb channel "lookDown" then (- FaceTracking.pupil_y (FaceTracking.pupil face))%R
  else if String.eqb channel "lookLeft" then FaceTracking.pupil_x (FaceTracking.pupil face)
  else if String.eqb channel "lookRight" then (- FaceTracking.pupil_x (FaceTracking.pupil face))%R
  else if String.eqb channel "aa"
       then FaceTracking.A (FaceTracking.shape (FaceTracking.mouth face))
  else if String.eqb channel "joy"
       then FaceTracking.I (FaceTracking.shape (FaceTracking.mouth face))
  else if String.eqb channel "oh"
       then FaceTracking.O (FaceTracking.shape (FaceTracking.mouth face))
  else if String.eqb channel "ou"
       then FaceTracking.U (FaceTracking.shape (FaceTracking.mouth face))
  else if String.eqb channel "angry" then (- FaceTracking.brow face)%R
  else FaceTracking.brow face.

(** The channels the mapping table can reach. *)
Definition targets : list string :=
  [ "blinkLeft"; "blinkRight"; "lookUp"; "lookDown"; "lookLeft"; "lookRight";
    "aa"; "joy"; "oh"; "ou"; "angry"; "surprised" ].

End Spec.

(** ** Concrete scenes used by the examples *)

Module Scenario.
Import Rig.

(** A rig with the five mouth presets of VRM and a head bone, at rest. *)
Definition rig : VRM :=
  mkVRM
    (Some (mkExpressionManager
             (list_to_map [("aa", 0%R); ("ih", 0%R); ("ou", 0%R);
                           ("ee", 0%R); ("oh", 0%R)])
             false))
    (Some (mkHumanoid {[ "head" := XYZ.zero ]}))
    0 [].

(** The sample of the end-to-end scenario of the specification. *)
Definition sample : FaceTrackingData :=
  {| isActive := true;
     blendShapes := [("mouthOpen", 0.9%R)];
     rotation := XYZ.mk 10 0 0;
     position := XYZ.mk 0 0 0 |}.

(** A canvas whose clock last ticked at time [0], holding [data]. *)
Definition canvas (vrm : option VRM) (data : option FaceTrackingData)
  : Avatar.State :=
  Avatar.mkState vrm (Clock.mk true true 0 0) true true data [] 0.

(** A microphone at full scale on its only bin. *)
Definition loud : AudioLipSync.Refs :=
  AudioLipSync.mkRefs (Some (AudioLipSync.mkAnalyserNode [xff%byte]))
                      (Some [x00%byte]).

(** The application around that canvas, two camera frames into a run and
    with nothing logged yet. *)
Definition app (vrm : option VRM) (data : option FaceTrackingData)
  : App.State :=
  App.mkState (canvas vrm data) (FaceTracking.mkState 2 false) [].

(** A rig with every channel the mapping table can reach, a head bone and
    a neck bone, at rest. *)
Definition fullRig : VRM :=
  mkVRM
    (Some (mkExpressionManager
             (list_to_map (map (fun name => (name, 0%R)) Spec.targets))
             true))
    (Some (mkHumanoid {[ "head" := XYZ.zero; "neck" := XYZ.zero ]}))
    0 [].

(** A solved face: eyes open, mouth wide on A, everything else at rest. *)
Definition face : FaceTracking.TFace :=
  FaceTracking.mkTFace
    (FaceTracking.mkEye 1 1) (FaceTracking.mkPupil 0 0)
    (FaceTracking.mkMouth (FaceTracking.mkMouthShape 0.9 0 0 0))
    0
    (FaceTracking.mkHead XYZ.zero XYZ.zero).

End Scenario.

(** * Properties *)

(** ** The audio envelope *)

Section AudioFacts.
Import JsMath AudioLipSync.
Local Open Scope R_scope.

Lemma gt_true (a b : R) : a > b -> gt a b = true.
Proof. intros H. unfold gt. destruct (Rlt_dec b a); [reflexivity | contradiction]. Qed.

Lemma gt_false (a b : R) : a <= b -> gt a b = false.
Proof. intros H. unfold gt. destruct (Rlt_dec b a); [lra | reflexivity]. Qed.

Lemma byteValue_range (b : byte) : 0 <= byteValue b <= 255.
Proof.
  unfold byteValue. pose proof (Byte.to_N_bounded b) as Hb.
  split; [apply (IZR_le 0) | apply (IZR_le _ 255)]; lia.
Qed.

Lemma running_sum_range (data : list byte) (acc : R) :
  acc <= fold_left (fun sum value => sum + byteValue value) data acc
      <= acc + 255 * INR (length data).
Proof.
  revert acc. induction data as [|b rest IH]; intros acc.
  - simpl. lra.
  - cbn [fold_left]. change (length (b :: rest)) with (S (length rest)).
    rewrite S_INR. specialize (IH (acc + byteValue b)).
    pose proof (byteValue_range b). lra.
Qed.

Lemma sumOf_range (data : list byte) :
  0 <= sumOf data <= 255 * INR (length data).
Proof. unfold sumOf. pose proof (running_sum_range data 0). lra. Qed.

Lemma INR_length_pos (data : list byte) : data <> [] -> 0 < INR (length data).
Proof.
  intros H. apply lt_0_INR. destruct data; [congruence | simpl; lia].
Qed.

Lemma averageVolume_range (data : list byte) :
  data <> [] -> 0 <= averageVolume data <= 255.
Proof.
  intros H. unfold averageVolume.
  pose proof (INR_length_pos data H) as Hn. pose proof (sumOf_range data) as Hs.
  split.
  - apply Rmult_le_pos; [lra | left; now apply Rinv_0_lt_compat].
  - apply (Rmult_le_reg_r (INR (length data))); [assumption |].
    unfold Rdiv. rewrite Rmult_assoc, Rinv_l by lra. lra.
Qed.

Lemma normalizedVolume_range (data : list byte) :
  data <> [] -> 0 <= normalizedVolume data <= 1.
Proof.
  intros H. unfold normalizedVolume.
  pose proof (averageVolume_range data H). lra.
Qed.

Lemma Math_pow_0 (y : R) : Math_pow 0 y = 0.
Proof. unfold Math_pow. destruct (Rlt_dec 0 0); [lra | reflexivity]. Qed.

Lemma Math_pow_pos (x y : R) : 0 < x -> Math_pow x y = Rpower x y.
Proof. intros H. unfold Math_pow. destruct (Rlt_dec 0 x); [reflexivity | contradiction]. Qed.

Lemma Math_pow_1 (y : R) : Math_pow 1 y = 1.
Proof.
  rewrite Math_pow_pos by lra. unfold Rpower. rewrite ln_1, Rmult_0_r. apply exp_0.
Qed.

Lemma ln_nonpos (x : R) : 0 < x <= 1 -> ln x <= 0.
Proof.
  intros [H0 [H1 | ->]]; [| rewrite ln_1; lra].
  left. rewrite <- ln_1. now apply ln_increasing.
Qed.

Lemma exp_nonpos (t : R) : t <= 0 -> exp t <= 1.
Proof.
  intros [H | ->]; [| rewrite exp_0; lra].
  left. rewrite <- exp_0. now apply exp_increasing.
Qed.

Lemma Math_pow_range (x y : R) :
  0 <= x <= 1 -> 0 <= y -> 0 <= Math_pow x y <= 1.
Proof.
  intros [H0 H1] Hy. unfold Math_pow. destruct (Rlt_dec 0 x) as [Hx | Hx]; [| lra].
  unfold Rpower. split; [left; apply exp_pos |].
  apply exp_nonpos. pose proof (ln_nonpos x (conj Hx H1)). nra.
Qed.

(** Compression never lowers a volume in (0,1]: the exponent is below 1. *)
Lemma Math_pow_compresses (x y : R) :
  0 < x <= 1 -> 0 <= y <= 1 -> x <= Math_pow x y.
Proof.
  intros [H0 H1] [Hy0 Hy1]. rewrite Math_pow_pos by assumption.
  unfold Rpower. rewrite <- (exp_ln x) at 1 by assumption.
  pose proof (ln_nonpos x (conj H0 H1)) as Hl.
  assert (ln x <= y * ln x) as [Hlt | Heq] by nra.
  - left. now apply exp_increasing.
  - rewrite <- Heq. lra.
Qed.

Lemma length_getByteFrequencyData (analyser : AnalyserNode) (array : list byte) :
  length (getByteFrequencyData analyser array) = length array.
Proof.
  unfold getByteFrequencyData.
  rewrite length_app, length_firstn, length_skipn. lia.
Qed.

End AudioFacts.

Section AudioClaims.
Import JsMath AudioLipSync Spec.
Local Open Scope R_scope.

Lemma thresholded_intro (s threshold gain : R) :
  thresholded s threshold gain (if gt s threshold then s * gain else 0).
Proof.
  split; intros H.
  - now rewrite gt_true.
  - now rewrite gt_false.
Qed.

Lemma lipSyncData_bounded (v : R) :
  0 <= v <= 1 ->
  let d := lipSyncData v in
  0 <= volume d <= 1 /\
  0 <= visemeA d <= 0.8 /\ 0 <= visemeI d <= 0.6 /\ 0 <= visemeU d <= 0.4 /\
  0 <= visemeE d <= 0.5 /\ 0 <= visemeO d <= 0.7.
Proof.
  intros Hv. pose proof (Math_pow_range v 0.7 Hv ltac:(lra)) as Hs.
  cbn -[Math_pow]. set (s := Math_pow v 0.7) in *.
  repeat split; try lra;
    match goal with |- context [gt s ?t] => destruct (gt s t) end; lra.
Qed.

(** C2.  For every volume [v] in [0,1], with [s = v^0.7] the compressed
    level, the estimator reports [s] as its volume, and each viseme weight
    is [s] times the gain of the viseme when [s] exceeds the threshold of
    the viseme, and [0] otherwise (A: 0.10/0.8, I: 0.05/0.6, U: 0.03/0.4,
    E: 0.07/0.5, O: 0.04/0.7).  At [v = 0] every weight is [0], at [v = 1]
    the weights are the gains, and at [v = 0.5] every threshold is passed. *)
Theorem viseme_weights_follow_table (v : R) :
  0 <= v <= 1 ->
  let s := Math_pow v 0.7 in
  let d := lipSyncData v in
  ((v = 0 -> s = 0) /\ (0 < v -> s = Rpower v 0.7)) /\
  volume d = s /\
  thresholded s 0.1 0.8 (visemeA d) /\
  thresholded s 0.05 0.6 (visemeI d) /\
  thresholded s 0.03 0.4 (visemeU d) /\
  thresholded s 0.07 0.5 (visemeE d) /\
  thresholded s 0.04 0.7 (visemeO d) /\
  (v = 0 -> d = mkAudioLipSyncData 0 0 0 0 0 0) /\
  (v = 1 -> d = mkAudioLipSyncData 1 0.8 0.6 0.4 0.5 0.7) /\
  (v = 0.5 ->
   0.5 <= s <= 1 /\
   d = mkAudioLipSyncData s (s * 0.8) (s * 0.6) (s * 0.4) (s * 0.5) (s * 0.7)).
Proof.
  intros Hv s d.
  split; [split; [intros ->; apply Math_pow_0 | intros H; now apply Math_pow_pos] |].
  split; [reflexivity |].
  do 5 (split; [apply thresholded_intro |]).
  split; [| split].
  - intros ->. subst d s. unfold lipSyncData. rewrite Math_pow_0.
    rewrite !gt_false by lra. reflexivity.
  - intros ->. subst d s. unfold lipSyncData. rewrite Math_pow_1.
    rewrite !gt_true by lra. f_equal; lra.
  - intros ->.
    assert (0.5 <= s <= 1) as Hs.
    { split; [apply Math_pow_compresses | apply Math_pow_range]; lra. }
    split; [exact Hs |].
    subst d. unfold lipSyncData. fold s. rewrite !gt_true by lra. reflexivity.
Qed.

Lemma viseme_weights_at_full_volume :
  0 <= 1 <= 1 /\
  lipSyncData 1 = mkAudioLipSyncData 1 0.8 0.6 0.4 0.5 0.7.
Proof.
  assert (0 <= 1 <= 1) as H by lra.
  split; [exact H |].
  apply (viseme_weights_follow_table 1 H). reflexivity.
Defined.

(** C10.  Whatever non-empty byte spectrum the analyser delivers, the
    estimator emits a sample; the normalised and the compressed volume lie
    in [0,1], and each viseme weight lies between [0] and the gain of its
    viseme, hence in [0,1], without any clamp on the outputs. *)
Theorem audio_outputs_bounded (analyser : AnalyserNode) (array : list byte) :
  array <> [] ->
  let data := getByteFrequencyData analyser array in
  let d := lipSyncData (normalizedVolume data) in
  analyzeAudio (mkRefs (Some analyser) (Some array)) true = Some (data, d) /\
  0 <= normalizedVolume data <= 1 /\
  0 <= volume d <= 1 /\
  (0 <= visemeA d <= 0.8 /\ 0 <= visemeI d <= 0.6 /\ 0 <= visemeU d <= 0.4 /\
   0 <= visemeE d <= 0.5 /\ 0 <= visemeO d <= 0.7) /\
  (visemeA d <= 1 /\ visemeI d <= 1 /\ visemeU d <= 1 /\
   visemeE d <= 1 /\ visemeO d <= 1).
Proof.
  intros Harr data d.
  assert (data <> []) as Hdata.
  { intros E. apply (f_equal (@length byte)) in E. subst data.
    rewrite length_getByteFrequencyData in E. destruct array; [congruence | discriminate]. }
  pose proof (normalizedVolume_range data Hdata) as Hv.
  destruct (lipSyncData_bounded _ Hv) as (Hvol & HA & HI & HU & HE & HO).
  fold d in Hvol, HA, HI, HU, HE, HO.
  repeat split; try reflexivity; lra.
Qed.

Lemma audio_outputs_bounded_on_two_bins :
  [x00; x00]%byte <> [] /\
  0 <= normalizedVolume (getByteFrequencyData (mkAnalyserNode [x7f; x80]%byte)
                                              [x00; x00]%byte) <= 1.
Proof.
  assert ([x00; x00]%byte <> []) as H by discriminate.
  split; [exact H |].
  apply (audio_outputs_bounded (mkAnalyserNode [x7f; x80]%byte) [x00; x00]%byte H).
Defined.

End AudioClaims.

(** ** The frame decimator and the tracking boundary *)

Section TrackingFacts.
Import FaceTracking.

Variable solve : NormalizedLandmarkList -> SolveOutcome.
Variable onUpdate : bool.

Lemma onResults_frameCount (st : State) (results : Results) :
  frameCountRef (fst (onResults solve onUpdate st results))
  = (frameCountRef st + 1)%N.
Proof.
  unfold onResults.
  destruct (negb _); [reflexivity |].
  destruct (multiFaceLandmarks results) as [[|landmarks rest]|]; try reflexivity.
  destruct (solve landmarks) as [[face|]|]; reflexivity.
Qed.

Lemma onResults_dropped (st : State) (results : Results) :
  ((frameCountRef st + 1) mod 3 <> 0)%N ->
  onResults solve onUpdate st results
  = (mkState (frameCountRef st + 1) (isTracking st), None).
Proof.
  intros H. unfold onResults.
  destruct (N.eqb_spec ((frameCountRef st + 1) mod 3) 0) as [E | _];
    [contradiction | reflexivity].
Qed.

Lemma onResults_forwarded (st : State) (results : Results) :
  ((frameCountRef st + 1) mod 3 = 0)%N ->
  exists evs, snd (onResults solve onUpdate st results) = Some evs /\
    (hasFace results = true -> existsb isFaceSolve evs = true) /\
    (hasFace results = false -> existsb isFaceSolve evs = false).
Proof.
  intros H. unfold onResults, hasFace. rewrite H. cbn [N.eqb negb].
  destruct (multiFaceLandmarks results) as [[|landmarks rest]|].
  - eexists. split; [reflexivity |]. split; [discriminate |].
    intros _. unfold callOnUpdate. destruct onUpdate; reflexivity.
  - destruct (solve landmarks) as [[face|]|];
      (eexists; split; [reflexivity |]; split; [reflexivity | discriminate]).
  - eexists. split; [reflexivity |]. split; [discriminate |].
    intros _. unfold callOnUpdate. destruct onUpdate; reflexivity.
Qed.

Lemma mod3_of_nat (p : nat) :
  (N.of_nat p mod 3 = 0)%N <-> (p mod 3 =? 0) = true.
Proof.
  rewrite Nat.eqb_eq. change 3%N with (N.of_nat 3).
  rewrite <- Nat2N.inj_mod. split; intros H; [| now rewrite H].
  apply Nat2N.inj. exact H.
Qed.

Lemma forwardedFrom_run (frames : list Results) :
  forall (st : State) (first : nat),
    N.of_nat first = (frameCountRef st + 1)%N ->
    forwardedFrom first (run solve onUpdate st frames)
    = List.filter (fun p => p mod 3 =? 0) (seq first (length frames)).
Proof.
  induction frames as [|results rest IH]; intros st first Hfirst; [reflexivity |].
  cbn [run length seq List.filter].
  pose proof (onResults_frameCount st results) as Hcount.
  destruct (onResults solve onUpdate st results) as [st' out] eqn:E.
  cbn [fst] in Hcount. cbn [forwardedFrom].
  assert (N.of_nat (S first) = (frameCountRef st' + 1)%N) as Hnext by lia.
  destruct (first mod 3 =? 0) eqn:Hm.
  - apply mod3_of_nat in Hm. rewrite Hfirst in Hm.
    destruct (onResults_forwarded st results Hm) as (evs & Hevs & _).
    rewrite E in Hevs. cbn [snd] in Hevs. subst out.
    f_equal. now apply IH.
  - assert ((frameCountRef st + 1) mod 3 <> 0)%N as Hd.
    { rewrite <- Hfirst. intros H. apply mod3_of_nat in H. congruence. }
    rewrite (onResults_dropped st results Hd) in E. injection E as <- <-.
    now apply IH.
Qed.

Lemma solvedFrom_run (frames : list Results) :
  forall (st : State) (first : nat),
    Forall (fun results => hasFace results = true) frames ->
    solvedFrom first (run solve onUpdate st frames)
    = forwardedFrom first (run solve onUpdate st frames).
Proof.
  induction frames as [|results rest IH]; intros st first Hall; [reflexivity |].
  inversion Hall as [|? ? Hface Hrest]; subst.
  cbn [run].
  destruct (onResults solve onUpdate st results) as [st' out] eqn:E.
  cbn [solvedFrom forwardedFrom].
  destruct out as [evs|]; [| now apply IH].
  destruct (N.eq_dec ((frameCountRef st + 1) mod 3)%N 0%N) as [Hm | Hm].
  - destruct (onResults_forwarded st results Hm) as (evs' & Hevs & Hyes & _).
    rewrite E in Hevs. cbn [snd] in Hevs. injection Hevs as <-.
    rewrite (Hyes Hface). f_equal. now apply IH.
  - rewrite (onResults_dropped st results Hm) in E. discriminate.
Qed.

Lemma emitted_onResults (st : State) (results : Results) (evs : list Event) :
  snd (onResults solve onUpdate st results) = Some evs ->
  Forall (fun d => sampleInvariant d /\ producedShape d) (emittedBy evs).
Proof.
  assert (forall d, sampleInvariant d /\ producedShape d ->
                    Forall (fun d => sampleInvariant d /\ producedShape d)
                           (emittedBy (callOnUpdate onUpdate d))) as Hcall.
  { intros d Hd. unfold callOnUpdate. destruct onUpdate; cbn; auto. }
  assert (sampleInvariant inactiveData /\ producedShape inactiveData) as Hinactive.
  { split; [intros _; repeat split | now right]. }
  unfold onResults. destruct (negb _); [discriminate |].
  destruct (multiFaceLandmarks results) as [[|landmarks rest]|].
  - intros [= <-]. now apply Hcall.
  - destruct (solve landmarks) as [[face|]|]; intros [= <-].
    + apply (Hcall (trackingData face)). split.
      * intros H. discriminate H.
      * left. now exists face.
    + constructor.
    + now apply Hcall.
  - intros [= <-]. now apply Hcall.
Qed.

End TrackingFacts.

(** ** The rig applier *)

Section ApplierFacts.
Import JsMath Rig Avatar Spec.
Local Open Scope R_scope.

Lemma clamp01_range (value : R) : 0 <= clamp01 value <= 1.
Proof.
  unfold clamp01, Math_max, Math_min, Rmax, Rmin.
  destruct (Rle_dec 1 value); destruct (Rle_dec 0 _); lra.
Qed.

Lemma clamp01_inside (value : R) : 0 <= value <= 1 -> clamp01 value = value.
Proof.
  intros H. unfold clamp01, Math_max, Math_min, Rmax, Rmin.
  destruct (Rle_dec 1 value); destruct (Rle_dec 0 _); lra.
Qed.

Lemma clamp01_above (value : R) : 1 <= value -> clamp01 value = 1.
Proof.
  intros H. unfold clamp01, Math_max, Math_min, Rmax, Rmin.
  destruct (Rle_dec 1 value); destruct (Rle_dec 0 _); lra.
Qed.

Lemma clamp01_below (value : R) : value <= 0 -> clamp01 value = 0.
Proof.
  intros H. unfold clamp01, Math_max, Math_min, Rmax, Rmin.
  destruct (Rle_dec 1 value); destruct (Rle_dec 0 _); lra.
Qed.

Lemma sameRig_refl (v : VRM) : sameRig v v.
Proof. repeat split. Qed.

Lemma sameRig_trans (v1 v2 v3 : VRM) : sameRig v1 v2 -> sameRig v2 v3 -> sameRig v1 v3.
Proof. intros (A1 & A2 & A3) (B1 & B2 & B3). repeat split; congruence. Qed.

Lemma sameRig_sym (v1 v2 : VRM) : sameRig v1 v2 -> sameRig v2 v1.
Proof. intros (A1 & A2 & A3). repeat split; congruence. Qed.

(** A [setValue] on a key the manager does not hold leaves it as it was,
    whether the call returns or throws. *)
Lemma setValue_unknown (em : VRMExpressionManager) (name : Key) (weight : R) :
  match name with Name s => weights em !! s = None | Builtin _ => True end ->
  setValue em name weight = Done em \/ setValue em name weight = Thrown.
Proof.
  intros H. unfold setValue. destruct name as [s | member].
  - rewrite H. destruct (throwsOnUnknown em); auto.
  - destruct (throwsOnUnknown em); auto.
Qed.

(** One entry: what it appends to the record of calls, and what it keeps. *)
Lemma applyBlendShape_calls (vrm : VRM) (entry : string * R) :
  expressionManager vrm <> None ->
  calls (applyBlendShape vrm entry) = calls vrm ++ setValueCalls [entry].
Proof.
  intros Hem. destruct entry as [shapeName value].
  unfold applyBlendShape, setValueCalls. cbn [flat_map fst snd].
  destruct (mapToVRMBlendShape shapeName) as [name|];
    [| now rewrite app_nil_r].
  destruct (expressionManager vrm) as [em|]; [| congruence].
  rewrite app_nil_r. destruct (setValue em name (clamp01 value)); reflexivity.
Qed.

Lemma applyBlendShape_keeps (vrm : VRM) (entry : string * R) :
  humanoid (applyBlendShape vrm entry) = humanoid vrm /\
  animationTime (applyBlendShape vrm entry) = animationTime vrm /\
  (expressionManager vrm <> None ->
   expressionManager (applyBlendShape vrm entry) <> None).
Proof.
  destruct entry as [shapeName value]. unfold applyBlendShape.
  destruct (mapToVRMBlendShape shapeName) as [name|]; [| auto].
  destruct (expressionManager vrm) as [em|] eqn:E; [| auto].
  destruct (setValue em name (clamp01 value)); cbn; rewrite ?E; repeat split; congruence.
Qed.

Lemma applyBlendShape_sameRig (v1 v2 : VRM) (entry : string * R) :
  sameRig v1 v2 -> sameRig (applyBlendShape v1 entry) (applyBlendShape v2 entry).
Proof.
  intros (Hem & Hh & Ht). destruct entry as [shapeName value].
  unfold applyBlendShape.
  destruct (mapToVRMBlendShape shapeName) as [name|]; [| repeat split; assumption].
  rewrite <- Hem. destruct (expressionManager v1) as [em|] eqn:E;
    [| repeat split; congruence].
  destruct (setValue em name (clamp01 value)); repeat split; cbn; congruence.
Qed.

Lemma fold_applyBlendShape_sameRig (blendShapes : list (string * R)) :
  forall v1 v2 : VRM,
    sameRig v1 v2 ->
    sameRig (fold_left applyBlendShape blendShapes v1)
            (fold_left applyBlendShape blendShapes v2).
Proof.
  induction blendShapes as [|entry rest IH]; intros v1 v2 H; [exact H |].
  cbn [fold_left]. apply IH. now apply applyBlendShape_sameRig.
Qed.

Lemma fold_applyBlendShape_calls (blendShapes : list (string * R)) :
  forall vrm : VRM,
    expressionManager vrm <> None ->
    calls (fold_left applyBlendShape blendShapes vrm)
    = calls vrm ++ setValueCalls blendShapes
    /\ humanoid (fold_left applyBlendShape blendShapes vrm) = humanoid vrm
    /\ animationTime (fold_left applyBlendShape blendShapes vrm) = animationTime vrm
    /\ expressionManager (fold_left applyBlendShape blendShapes vrm) <> None.
Proof.
  induction blendShapes as [|entry rest IH]; intros vrm Hem.
  - cbn. rewrite app_nil_r. auto.
  - cbn [fold_left].
    destruct (applyBlendShape_keeps vrm entry) as (Hh & Ht & Hk).
    destruct (IH (applyBlendShape vrm entry) (Hk Hem)) as (Hc & Hh' & Ht' & Hem').
    rewrite Hc, Hh', Ht', applyBlendShape_calls by assumption.
    rewrite <- app_assoc. repeat split; try assumption.
    unfold setValueCalls. cbn [flat_map]. now rewrite app_nil_r.
Qed.

Lemma applyBlendShapes_calls (vrm : VRM) (blendShapes : list (string * R)) :
  calls (applyBlendShapes vrm blendShapes)
  = calls vrm ++ match expressionManager vrm with
                 | Some _ => setValueCalls blendShapes
                 | None => []
                 end.
Proof.
  unfold applyBlendShapes. destruct (expressionManager vrm) as [em|] eqn:E.
  - apply fold_applyBlendShape_calls. congruence.
  - now rewrite app_nil_r.
Qed.

(** A name the table does not list reaches no channel. *)
Lemma applyBlendShape_unmapped (vrm : VRM) (shapeName : string) (value : R) :
  ownProperty mapping shapeName = None ->
  sameRig (applyBlendShape vrm (shapeName, value)) vrm.
Proof.
  intros Hown. unfold applyBlendShape, mapToVRMBlendShape. rewrite Hown.
  destruct (existsb _ inherited); [| apply sameRig_refl].
  destruct (expressionManager vrm) as [em|] eqn:E; [| apply sameRig_refl].
  destruct (setValue_unknown em (Builtin shapeName) (clamp01 value) Logic.I) as [-> | ->];
    repeat split; cbn; congruence.
Qed.

Lemma callsSince_animate_some (st : State) (vrm vrm' : VRM) (now1 now2 : R) :
  vrmRef st = Some vrm ->
  vrmRef (animate now1 now2 st) = Some vrm' ->
  callsSince st (animate now1 now2 st) = skipn (length (calls vrm)) (calls vrm').
Proof. intros H H'. unfold callsSince. now rewrite H, H'. Qed.

Lemma skipn_app_exact {T : Type} (l1 l2 : list T) :
  skipn (length l1) (l1 ++ l2) = l2.
Proof. induction l1 as [|a l1 IH]; [reflexivity | exact IH]. Qed.

(** What one tick does to a loaded rig, and to the observer. *)
Lemma animate_vrm (st : State) (vrm : VRM) (now1 now2 : R) :
  vrmRef st = Some vrm ->
  exists deltaTime,
    vrmRef (animate now1 now2 st)
    = Some (update (applyTracking vrm (currentTrackingData st)) deltaTime).
Proof.
  intros H. unfold animate. rewrite H.
  destruct (statsRef st).
  - destruct (Clock.getDelta (clockRef st) now1) as [delta c].
    destruct (Clock.getDelta c now2) as [deltaTime clock2]. now exists deltaTime.
  - destruct (Clock.getDelta (clockRef st) now2) as [deltaTime clock2]. now exists deltaTime.
Qed.

Lemma animate_fps (st : State) (now1 now2 : R) :
  statsRef st = true ->
  fpsUpdates (animate now1 now2 st)
  = fpsUpdates st ++ [fpsOfDelta (fst (Clock.getDelta (clockRef st) now1))].
Proof.
  intros H. unfold animate. rewrite H.
  destruct (Clock.getDelta (clockRef st) now1) as [delta c].
  destruct (Clock.getDelta c now2) as [deltaTime clock2]. reflexivity.
Qed.

End ApplierFacts.

(** ** Claims about the tracking producer *)

Section TrackingClaims.
Import FaceTracking.

(** C3.  From a fresh counter, whatever the solver does and whatever the
    frames show, the decimation test lets through exactly the frames whose
    position is a multiple of 3 and drops the others; when every frame shows
    a face, those are exactly the frames handed to the solver.  Of 9 frames,
    the 3rd, the 6th and the 9th are forwarded. *)
Theorem every_third_frame_forwarded
  (solve : NormalizedLandmarkList -> SolveOutcome) (onUpdate : bool)
  (frames : list Results) :
  let outs := run solve onUpdate initialState frames in
  forwardedPositions outs
  = List.filter (fun p => p mod 3 =? 0) (seq 1 (length frames)) /\
  (forall p : nat,
     In p (forwardedPositions outs) <->
     (1 <= p <= length frames /\ p mod 3 = 0)%nat) /\
  (Forall (fun results => hasFace results = true) frames ->
   solvedPositions outs = forwardedPositions outs) /\
  (length frames = 9%nat -> forwardedPositions outs = [3; 6; 9]%nat).
Proof.
  intros outs.
  assert (forwardedPositions outs
          = List.filter (fun p => p mod 3 =? 0) (seq 1 (length frames))) as Hf.
  { apply forwardedFrom_run. reflexivity. }
  split; [exact Hf |]. split; [| split].
  - intros p. rewrite Hf, filter_In, in_seq, Nat.eqb_eq. lia.
  - intros Hall. now apply solvedFrom_run.
  - intros Hlen. rewrite Hf, Hlen. reflexivity.
Qed.

Lemma nine_frames_forward_three :
  length (repeat (mkResults None) 9) = 9%nat /\
  forwardedPositions
    (run (fun _ => Threw) true initialState (repeat (mkResults None) 9))
  = [3; 6; 9]%nat.
Proof.
  assert (length (repeat (mkResults None) 9) = 9%nat) as H by reflexivity.
  split; [exact H |].
  apply (every_third_frame_forwarded (fun _ => Threw) true
           (repeat (mkResults None) 9)). exact H.
Defined.

(** C8.  Every sample the hook hands to [onUpdate], over any run from any
    state and with any solver, satisfies the invariant of a tracking sample:
    if it is not active, its weights are empty and its rotation and position
    are zero.  Indeed a sample is either built from a solved face, and then
    active, or it is the inactive literal. *)
Theorem emitted_samples_keep_invariant
  (solve : NormalizedLandmarkList -> SolveOutcome) (onUpdate : bool)
  (st : State) (frames : list Results) :
  Forall (fun d => sampleInvariant d /\ producedShape d)
         (emitted (run solve onUpdate st frames)).
Proof.
  revert st. induction frames as [|results rest IH]; intros st; [constructor |].
  cbn [run].
  destruct (onResults solve onUpdate st results) as [st' out] eqn:E.
  unfold emitted. cbn [flat_map]. apply Forall_app. split; [| apply IH].
  destruct out as [evs|]; [| constructor].
  apply (emitted_onResults solve onUpdate st results). now rewrite E.
Qed.

End TrackingClaims.

(** ** Claims about the rig applier *)

Section ApplierClaims.
Import JsMath Rig Avatar Spec.
Local Open Scope R_scope.

Lemma In_setValueCalls (blendShapes : list (string * R)) (name : Key) (weight : R) :
  In (SetValue name weight) (setValueCalls blendShapes) <->
  exists shapeName value,
    In (shapeName, value) blendShapes /\
    mapToVRMBlendShape shapeName = Some name /\ weight = clamp01 value.
Proof.
  unfold setValueCalls. rewrite in_flat_map. split.
  - intros ([shapeName value] & Hin & Hcall). cbn [fst snd] in Hcall.
    exists shapeName, value.
    destruct (mapToVRMBlendShape shapeName) as [k|]; [| destruct Hcall].
    destruct Hcall as [[= -> ->] | []]. auto.
  - intros (shapeName & value & Hin & Hmap & ->).
    exists (shapeName, value). split; [exact Hin |].
    cbn [fst snd]. rewrite Hmap. now left.
Qed.

(** C5.  Every weight the applier passes to the rig is the source value
    clamped to [0,1]: each [setValue] call comes from an entry of the sample
    whose name the table resolves, and carries
    [Math.max(0, Math.min(1, value))], which is [1] for a value of 1.5 (or
    any value from 1 up), [0] for a value of -0.2 (or any value down from 0),
    and the value itself in between. *)
Theorem written_weights_are_clamped
  (vrm : VRM) (blendShapes : list (string * R)) (name : Key) (weight : R) :
  In (SetValue name weight)
     (skipn (length (calls vrm)) (calls (applyBlendShapes vrm blendShapes))) ->
  exists shapeName value,
    In (shapeName, value) blendShapes /\
    mapToVRMBlendShape shapeName = Some name /\
    weight = Math_max 0 (Math_min 1 value) /\
    0 <= weight <= 1 /\
    (value = 1.5 -> weight = 1) /\
    (value = -0.2 -> weight = 0) /\
    (1 <= value -> weight = 1) /\
    (value <= 0 -> weight = 0) /\
    (0 <= value <= 1 -> weight = value).
Proof.
  rewrite applyBlendShapes_calls, skipn_app_exact.
  destruct (expressionManager vrm) as [em|]; [| intros []].
  intros (shapeName & value & Hin & Hmap & ->)%In_setValueCalls.
  exists shapeName, value. split; [exact Hin |]. split; [exact Hmap |].
  split; [reflexivity |]. split; [apply clamp01_range |].
  split; [intros ->; apply clamp01_above; lra |].
  split; [intros ->; apply clamp01_below; lra |].
  split; [apply clamp01_above |]. split; [apply clamp01_below | apply clamp01_inside].
Qed.

Lemma mouthOpen_calls :
  skipn (length (calls Scenario.rig))
        (calls (applyBlendShapes Scenario.rig [("mouthOpen", 1.5)]))
  = [SetValue (Name "aa") (clamp01 1.5)].
Proof. rewrite applyBlendShapes_calls, skipn_app_exact. reflexivity. Qed.

Lemma overdriven_mouth_is_written_as_one :
  In (SetValue (Name "aa") (clamp01 1.5))
     (skipn (length (calls Scenario.rig))
            (calls (applyBlendShapes Scenario.rig [("mouthOpen", 1.5)]))) /\
  exists shapeName value,
    In (shapeName, value) [("mouthOpen", 1.5)] /\
    mapToVRMBlendShape shapeName = Some (Name "aa") /\
    clamp01 1.5 = Math_max 0 (Math_min 1 value) /\
    0 <= clamp01 1.5 <= 1 /\
    (value = 1.5 -> clamp01 1.5 = 1) /\
    (value = -0.2 -> clamp01 1.5 = 0) /\
    (1 <= value -> clamp01 1.5 = 1) /\
    (value <= 0 -> clamp01 1.5 = 0) /\
    (0 <= value <= 1 -> clamp01 1.5 = value).
Proof.
  assert (In (SetValue (Name "aa") (clamp01 1.5))
             (skipn (length (calls Scenario.rig))
                    (calls (applyBlendShapes Scenario.rig [("mouthOpen", 1.5)]))))
    as H by (rewrite mouthOpen_calls; now left).
  split; [exact H |].
  exact (written_weights_are_clamped Scenario.rig [("mouthOpen", 1.5)]
           (Name "aa") (clamp01 1.5) H).
Defined.

End ApplierClaims.

Section MappingClaims.
Import JsMath Rig Avatar Spec.
Local Open Scope R_scope.

Lemma applyBlendShapes_single (vrm : VRM) (entry : string * R) :
  applyBlendShapes vrm [entry]
  = match expressionManager vrm with
    | Some _ => applyBlendShape vrm entry
    | None => vrm
    end.
Proof. unfold applyBlendShapes. now destruct (expressionManager vrm). Qed.

Lemma applyBlendShapes_sameRig_drop
  (vrm : VRM) (shapeName : string) (value : R) (before after : list (string * R)) :
  ownProperty mapping shapeName = None ->
  sameRig (applyBlendShapes vrm (before ++ (shapeName, value) :: after))
          (applyBlendShapes vrm (before ++ after)).
Proof.
  intros Hown. unfold applyBlendShapes.
  destruct (expressionManager vrm); [| apply sameRig_refl].
  rewrite !fold_left_app. cbn [fold_left].
  apply fold_applyBlendShape_sameRig. now apply applyBlendShape_unmapped.
Qed.

(** C7.  A source name without an entry in the mapping table never reaches a
    channel: with the name in a sample, the applier leaves the rig with the
    channels, bones and animation state it would have without it, whether
    the rig ignores or rejects unknown keys; a sample holding only
    [fooBar: 0.9] leaves the rig untouched.  A mapped name whose channel the
    rig lacks, and a head rotation for a rig without a head bone or without a
    humanoid, change nothing either. *)
Theorem unmapped_names_touch_nothing
  (vrm : VRM) (shapeName : string) (value : R) (before after : list (string * R)) :
  ownProperty mapping shapeName = None ->
  sameRig (applyBlendShapes vrm (before ++ (shapeName, value) :: after))
          (applyBlendShapes vrm (before ++ after)) /\
  sameRig (applyBlendShapes vrm [(shapeName, value)]) vrm /\
  (mapToVRMBlendShape "fooBar" = None /\
   applyBlendShapes vrm [("fooBar", 0.9)] = vrm) /\
  (forall (mapped target : string) (em : VRMExpressionManager) (w : R),
     expressionManager vrm = Some em ->
     mapToVRMBlendShape mapped = Some (Name target) ->
     weights em !! target = None ->
     sameRig (applyBlendShapes vrm [(mapped, w)]) vrm) /\
  (forall (h : VRMHumanoid) (rot : XYZ.t),
     humanoid vrm = Some h -> getNormalizedBoneNode h "head" = None ->
     applyHeadRotation vrm rot = vrm) /\
  (forall rot : XYZ.t, humanoid vrm = None -> applyHeadRotation vrm rot = vrm).
Proof.
  intros Hown.
  split; [now apply applyBlendShapes_sameRig_drop |].
  split; [| split; [| split; [| split]]].
  - pose proof (applyBlendShapes_sameRig_drop vrm shapeName value [] [] Hown) as H.
    cbn [app] in H. apply (sameRig_trans _ _ _ H).
    unfold applyBlendShapes. destruct (expressionManager vrm); apply sameRig_refl.
  - split; [reflexivity |]. rewrite applyBlendShapes_single.
    now destruct (expressionManager vrm).
  - intros mapped target em w Hem Hmap Hmiss.
    rewrite applyBlendShapes_single, Hem. unfold applyBlendShape.
    rewrite Hmap, Hem.
    destruct (setValue_unknown em (Name target) (clamp01 w) Hmiss) as [-> | ->];
      repeat split; cbn; congruence.
  - intros h rot Hh Hbone. unfold applyHeadRotation. now rewrite Hh, Hbone.
  - intros rot Hh. unfold applyHeadRotation. now rewrite Hh.
Qed.

Lemma fooBar_touches_nothing :
  ownProperty mapping "fooBar" = None /\
  sameRig (applyBlendShapes Scenario.rig
             ([("mouthOpen", 0.5)] ++ ("fooBar", 0.9) :: []))
          (applyBlendShapes Scenario.rig ([("mouthOpen", 0.5)] ++ [])) /\
  applyBlendShapes Scenario.rig [("fooBar", 0.9)] = Scenario.rig.
Proof.
  assert (ownProperty mapping "fooBar" = None) as H by reflexivity.
  pose proof (unmapped_names_touch_nothing Scenario.rig "fooBar" 0.9
                [("mouthOpen", 0.5)] [] H) as (Hdrop & _ & (_ & Hfoo) & _).
  exact (conj H (conj Hdrop Hfoo)).
Defined.

(** C9.  With the sample [{active, mouthOpen: 0.9, rotation (10, 0, 0)}] in
    the tracking cell, a tick on a rig that has the channel [aa] and a head
    bone sets [aa] to 0.9 and the head's [rotation.x] to
    [degToRad (10 * 0.5)], which is [PI / 36]; these are the only writes,
    followed by the rig's [update]. *)
Theorem scenario_writes_aa_and_head
  (st : State) (vrm : VRM) (em : VRMExpressionManager) (h : VRMHumanoid)
  (now1 now2 : R) :
  vrmRef st = Some vrm ->
  expressionManager vrm = Some em ->
  is_Some (weights em !! "aa") ->
  humanoid vrm = Some h ->
  is_Some (getNormalizedBoneNode h "head") ->
  currentTrackingData st = Some Scenario.sample ->
  exists (vrm' : VRM) (deltaTime : R),
    vrmRef (animate now1 now2 st) = Some vrm' /\
    weightOf vrm' "aa" = Some 0.9 /\
    boneRotation vrm' "head"
    = Some (XYZ.mk (degToRad (10 * 0.5)) (degToRad (0 * 0.5)) (degToRad (0 * 0.5))) /\
    degToRad (10 * 0.5) = PI / 36 /\
    calls vrm'
    = calls vrm ++ [SetValue (Name "aa") 0.9;
                    SetHeadRotationX (degToRad (10 * 0.5));
                    SetHeadRotationY (degToRad (0 * 0.5));
                    SetHeadRotationZ (degToRad (0 * 0.5));
                    Update deltaTime].
Proof.
  intros Hvrm Hem [w0 Haa] Hh [r0 Hhead] Hdata.
  destruct (animate_vrm st vrm now1 now2 Hvrm) as (deltaTime & Hanim).
  rewrite Hdata in Hanim.
  eexists. exists deltaTime. split; [exact Hanim |].
  unfold applyTracking, Scenario.sample.
  cbn [isActive blendShapes rotation].
  rewrite applyBlendShapes_single, Hem.
  unfold applyBlendShape.
  change (mapToVRMBlendShape "mouthOpen") with (Some (Name "aa")).
  rewrite Hem, (clamp01_inside 0.9) by lra.
  unfold setValue. rewrite Haa.
  unfold applyHeadRotation. cbn [humanoid logged]. rewrite Hh, Hhead.
  cbn [XYZ.x XYZ.y XYZ.z].
  unfold weightOf, boneRotation, update, logged, setNormalizedBoneNode.
  cbn [expressionManager humanoid weights normalizedBones calls animationTime].
  rewrite !lookup_insert_eq, <- !app_assoc.
  repeat split. unfold degToRad, DEG2RAD. lra.
Qed.

Lemma scenario_on_the_demo_rig :
  weightOf Scenario.rig "aa" = Some 0 /\
  exists (vrm' : VRM) (deltaTime : R),
    vrmRef (animate 16 16 (Scenario.canvas (Some Scenario.rig) (Some Scenario.sample)))
    = Some vrm' /\
    weightOf vrm' "aa" = Some 0.9 /\
    boneRotation vrm' "head"
    = Some (XYZ.mk (degToRad (10 * 0.5)) (degToRad (0 * 0.5)) (degToRad (0 * 0.5))).
Proof.
  split; [reflexivity |].
  destruct (scenario_writes_aa_and_head
              (Scenario.canvas (Some Scenario.rig) (Some Scenario.sample))
              Scenario.rig
              (mkExpressionManager
                 (list_to_map [("aa", 0); ("ih", 0); ("ou", 0); ("ee", 0); ("oh", 0)])
                 false)
              (mkHumanoid {[ "head" := XYZ.zero ]})
              16 16 eq_refl eq_refl
              (ex_intro _ 0 eq_refl) eq_refl (ex_intro _ XYZ.zero eq_refl) eq_refl)
    as (vrm' & deltaTime & H1 & H2 & H3 & _).
  exists vrm', deltaTime. exact (conj H1 (conj H2 H3)).
Defined.

End MappingClaims.

(** ** Claims about the render tick *)

Section TickFacts.
Import JsMath Rig Avatar Spec.
Local Open Scope R_scope.

Lemma setValueCalls_are_writes (blendShapes : list (string * R)) :
  Forall isWrite (setValueCalls blendShapes).
Proof.
  unfold setValueCalls. induction blendShapes as [|[s v] rest IH]; [constructor |].
  cbn [flat_map fst snd]. apply Forall_app. split; [| exact IH].
  destruct (mapToVRMBlendShape s); repeat constructor.
Qed.

Lemma applyHeadRotation_calls (vrm : VRM) (rot : XYZ.t) :
  exists writes,
    calls (applyHeadRotation vrm rot) = calls vrm ++ writes /\
    Forall isWrite writes.
Proof.
  unfold applyHeadRotation.
  destruct (humanoid vrm) as [h|]; [| exists []; now rewrite app_nil_r].
  destruct (getNormalizedBoneNode h "head"); [| exists []; now rewrite app_nil_r].
  eexists. split; [reflexivity |]. repeat constructor; now right.
Qed.

(** The applier only ever appends writes to the record of calls. *)
Lemma applyTracking_calls (vrm : VRM) (data : option FaceTrackingData) :
  exists writes,
    calls (applyTracking vrm data) = calls vrm ++ writes /\
    Forall isWrite writes.
Proof.
  unfold applyTracking.
  destruct data as [d|]; [| exists []; now rewrite app_nil_r].
  destruct (isActive d); [| exists []; now rewrite app_nil_r].
  destruct (applyHeadRotation_calls (applyBlendShapes vrm (blendShapes d)) (rotation d))
    as (w2 & Hw2 & Hf2).
  rewrite Hw2, applyBlendShapes_calls, <- app_assoc.
  eexists. split; [reflexivity |]. apply Forall_app. split; [| exact Hf2].
  destruct (expressionManager vrm); [apply setValueCalls_are_writes | constructor].
Qed.

Lemma applyTracking_inactive (vrm : VRM) (d : FaceTrackingData) :
  isActive d = false -> applyTracking vrm (Some d) = vrm.
Proof. intros H. unfold applyTracking. now rewrite H. Qed.

Lemma getDelta_running (c : Clock.t) (now : R) :
  Clock.running c = true ->
  fst (Clock.getDelta c now) = (now - Clock.oldTime c) / 1000.
Proof.
  intros H. unfold Clock.getDelta. rewrite H.
  now rewrite andb_false_r.
Qed.

Lemma fpsOfDelta_nonzero (delta : R) :
  delta <> 0 -> fpsOfDelta delta = Finite (Math_round (1 / delta)).
Proof. intros H. unfold fpsOfDelta. now destruct (Req_dec_T delta 0). Qed.

Lemma fpsOfDelta_zero : fpsOfDelta 0 = Infinity.
Proof. unfold fpsOfDelta. now destruct (Req_dec_T 0 0). Qed.

Lemma Math_round_near (x : R) :
  IZR (Math_round x) - / 2 <= x < IZR (Math_round x) + / 2.
Proof. unfold Math_round. pose proof (Zfloor_bound (x + / 2)). lra. Qed.

Lemma lipSyncData_at_1 :
  AudioLipSync.lipSyncData 1
  = AudioLipSync.mkAudioLipSyncData 1 0.8 0.6 0.4 0.5 0.7.
Proof.
  unfold AudioLipSync.lipSyncData. rewrite Math_pow_1.
  rewrite !gt_true by lra. f_equal; lra.
Qed.

Lemma normalizedVolume_full_scale :
  AudioLipSync.normalizedVolume [xff%byte] = 1.
Proof.
  unfold AudioLipSync.normalizedVolume, AudioLipSync.averageVolume,
    AudioLipSync.sumOf.
  cbn [fold_left length INR].
  change (AudioLipSync.byteValue xff) with 255. lra.
Qed.

End TickFacts.

Section TickClaims.
Import JsMath Rig Avatar Spec.
Local Open Scope R_scope.

(** C1, as the code has it.  With a sample marked inactive in the tracking
    cell, a render tick on a loaded rig makes a single rig call, the
    [update]: no head rotation and no expression weight is written.  The
    viseme weights of the audio estimator are not written either: an audio
    tick only appends its sample to the console, and the render tick does not
    read the console. *)
Theorem inactive_sample_writes_nothing
  (app : App.State) (d : FaceTrackingData) (vrm : VRM) (now1 now2 : R) :
  vrmRef (App.avatar app) = Some vrm ->
  currentTrackingData (App.avatar app) = Some d ->
  isActive d = false ->
  let app' := App.renderTick now1 now2 app in
  (exists deltaTime,
     vrmRef (App.avatar app') = Some (update vrm deltaTime) /\
     callsSince (App.avatar app) (App.avatar app') = [Update deltaTime]) /\
  (forall c, In c (callsSince (App.avatar app) (App.avatar app')) -> ~ isWrite c) /\
  (forall refs enabled,
     App.avatar (App.audioTick refs enabled app) = App.avatar app) /\
  (forall console,
     App.avatar (App.renderTick now1 now2
                   (App.mkState (App.avatar app) (App.tracker app) console))
     = App.avatar app').
Proof.
  intros Hvrm Hdata Hinactive app'.
  destruct (animate_vrm (App.avatar app) vrm now1 now2 Hvrm) as (deltaTime & Hanim).
  rewrite Hdata, (applyTracking_inactive vrm d Hinactive) in Hanim.
  assert (callsSince (App.avatar app) (App.avatar app') = [Update deltaTime]) as Hcalls.
  { subst app'. cbn [App.renderTick App.avatar].
    rewrite (callsSince_animate_some _ vrm _ now1 now2 Hvrm Hanim).
    unfold update, logged. cbn [calls]. apply skipn_app_exact. }
  split; [exists deltaTime; split; [exact Hanim | exact Hcalls] |].
  split; [| split].
  - rewrite Hcalls. intros c [<- | []] [H | H]; discriminate H.
  - intros refs enabled. unfold App.audioTick.
    destruct (AudioLipSync.analyzeAudio refs enabled) as [[data a]|]; reflexivity.
  - intros console. reflexivity.
Qed.

Lemma inactive_sample_on_the_demo_rig :
  isActive FaceTracking.inactiveData = false /\
  exists deltaTime,
    callsSince
      (App.avatar (Scenario.app (Some Scenario.rig) (Some FaceTracking.inactiveData)))
      (App.avatar (App.renderTick 16 16.1
                     (Scenario.app (Some Scenario.rig) (Some FaceTracking.inactiveData))))
    = [Update deltaTime].
Proof.
  split; [reflexivity |].
  destruct (inactive_sample_writes_nothing
              (Scenario.app (Some Scenario.rig) (Some FaceTracking.inactiveData))
              FaceTracking.inactiveData Scenario.rig 16 16.1
              eq_refl eq_refl eq_refl) as ((deltaTime & _ & H) & _).
  exists deltaTime. exact H.
Defined.

(** C1 as stated fails on its audio half.  The microphone is at full scale,
    so the estimator produces the viseme weights 0.8, 0.6, 0.4, 0.5 and 0.7;
    the rig has the five mouth channels; the tracking sample is inactive.
    The render tick that follows writes no channel at all. *)
Lemma inactive_tick_drops_the_visemes :
  let app0 := Scenario.app (Some Scenario.rig) (Some FaceTracking.inactiveData) in
  let app1 := App.audioTick Scenario.loud true app0 in
  let app2 := App.renderTick 16 16.1 app1 in
  App.console app1
  = [AudioLipSync.mkAudioLipSyncData 1 0.8 0.6 0.4 0.5 0.7] /\
  ~ (exists name weight,
       In (SetValue name weight)
          (callsSince (App.avatar app1) (App.avatar app2))) /\
  (forall channel, weightOf Scenario.rig channel <> None ->
     option_map (fun v => weightOf v channel) (vrmRef (App.avatar app2))
     = Some (Some 0)).
Proof.
  intros app0 app1 app2.
  assert (App.console app1
          = [AudioLipSync.lipSyncData (AudioLipSync.normalizedVolume [xff%byte])])
    as Hconsole by reflexivity.
  rewrite normalizedVolume_full_scale, lipSyncData_at_1 in Hconsole.
  split; [exact Hconsole |]. split.
  - assert (callsSince (App.avatar app1) (App.avatar app2)
            = [Update ((16.1 - 16) / 1000)]) as -> by reflexivity.
    intros (name & weight & [H | []]). discriminate H.
  - intros channel Hhas.
    change (option_map (fun v => weightOf v channel) (vrmRef (App.avatar app2)))
      with (Some (weightOf Scenario.rig channel)).
    f_equal. unfold weightOf, Scenario.rig in *.
    cbn [expressionManager weights] in *.
    destruct (decide (channel = "aa")) as [-> | Haa]; [reflexivity |].
    destruct (decide (channel = "ih")) as [-> | Hih]; [reflexivity |].
    destruct (decide (channel = "ou")) as [-> | Hou]; [reflexivity |].
    destruct (decide (channel = "ee")) as [-> | Hee]; [reflexivity |].
    destruct (decide (channel = "oh")) as [-> | Hoh]; [reflexivity |].
    exfalso. apply Hhas. cbn [list_to_map foldr fst snd uncurry].
    rewrite !lookup_insert_ne by congruence. apply lookup_empty.
Qed.

End TickClaims.

Section LoopClaims.
Import JsMath Rig Avatar Spec.
Local Open Scope R_scope.

(** C4, as the code has it.  A tick with the stats panel in place reads the
    clock and calls the frame-rate observer exactly once, with
    [Math.round(1 / elapsed)] for the time elapsed since the previous reading
    of the clock ([Infinity] when that time is zero); the reported value is
    within one half of [1 / elapsed].  When a rig is loaded, the tick applies
    the tracking sample and then calls the rig's [update] exactly once, as
    the last rig call of the tick; without a rig it calls nothing on it.  On
    a clock that is not running yet, the elapsed time reads as zero. *)
Theorem tick_reports_once_and_updates_once
  (st : State) (now1 now2 : R) :
  statsRef st = true ->
  let elapsed := fst (Clock.getDelta (clockRef st) now1) in
  let st' := animate now1 now2 st in
  (Clock.running (clockRef st) = true ->
   elapsed = (now1 - Clock.oldTime (clockRef st)) / 1000) /\
  (Clock.running (clockRef st) = false -> elapsed = 0) /\
  fpsUpdates st' = fpsUpdates st ++ [fpsOfDelta elapsed] /\
  (elapsed <> 0 ->
   fpsOfDelta elapsed = Finite (Math_round (1 / elapsed)) /\
   IZR (Math_round (1 / elapsed)) - / 2 <= 1 / elapsed
     < IZR (Math_round (1 / elapsed)) + / 2) /\
  (elapsed = 0 -> fpsOfDelta elapsed = Infinity) /\
  (forall vrm, vrmRef st = Some vrm ->
     exists deltaTime writes,
       vrmRef st'
       = Some (update (applyTracking vrm (currentTrackingData st)) deltaTime) /\
       callsSince st st' = writes ++ [Update deltaTime] /\
       Forall isWrite writes) /\
  (vrmRef st = None -> vrmRef st' = None /\ callsSince st st' = []).
Proof.
  intros Hstats elapsed st'.
  split; [intros Hrun; now apply getDelta_running |].
  split.
  { intros Hrun. subst elapsed. unfold Clock.getDelta. rewrite Hrun.
    now destruct (Clock.autoStart (clockRef st)). }
  split; [now apply animate_fps |].
  split; [intros Hne; split; [now apply fpsOfDelta_nonzero | apply Math_round_near] |].
  split; [intros ->; apply fpsOfDelta_zero |].
  split.
  - intros vrm Hvrm.
    destruct (animate_vrm st vrm now1 now2 Hvrm) as (deltaTime & Hanim).
    destruct (applyTracking_calls vrm (currentTrackingData st)) as (writes & Hw & Hf).
    exists deltaTime, writes. split; [exact Hanim |]. split; [| exact Hf].
    subst st'. rewrite (callsSince_animate_some _ vrm _ now1 now2 Hvrm Hanim).
    unfold update, logged. cbn [calls]. rewrite Hw, <- app_assoc.
    apply skipn_app_exact.
  - intros Hnone.
    assert (vrmRef st' = None) as H.
    { subst st'. unfold animate. rewrite Hnone, Hstats.
      destruct (Clock.getDelta (clockRef st) now1) as [delta c].
      destruct (Clock.getDelta c now2) as [deltaTime clock2]. reflexivity. }
    split; [exact H |]. unfold callsSince. now rewrite Hnone, H.
Qed.

Lemma sixteen_millisecond_tick :
  statsRef (Scenario.canvas (Some Scenario.rig) None) = true /\
  fpsUpdates (animate 16 16.1 (Scenario.canvas (Some Scenario.rig) None))
  = [] ++ [fpsOfDelta (fst (Clock.getDelta (Clock.mk true true 0 0) 16))].
Proof.
  split; [reflexivity |].
  apply (tick_reports_once_and_updates_once
           (Scenario.canvas (Some Scenario.rig) None) 16 16.1 eq_refl).
Defined.

(** C4 as stated fails.  The previous reading of the clock was at 0 ms; the
    tick reads it at 16 ms and again at 16.1 ms.  The elapsed time is
    0.016 s and its inverse 62.5, yet the observer receives 63; and the rig
    is advanced by the 0.0001 s between the two readings, not by the
    elapsed time. *)
Lemma tick_rate_is_rounded_and_delta_is_reread :
  let st := Scenario.canvas (Some Scenario.rig) None in
  let st' := animate 16 16.1 st in
  let elapsed := (16 - 0) / 1000 in
  1 / elapsed = 62.5 /\
  fpsUpdates st' = [Finite 63] /\
  IZR 63 <> 1 / elapsed /\
  callsSince st st' = [Update ((16.1 - 16) / 1000)] /\
  (16.1 - 16) / 1000 <> elapsed.
Proof.
  intros st st' elapsed.
  assert (1 / elapsed = 62.5) as Hinv by (subst elapsed; lra).
  split; [exact Hinv |]. split; [| split; [| split]].
  - assert (fpsUpdates st' = [fpsOfDelta elapsed]) as -> by reflexivity.
    rewrite fpsOfDelta_nonzero by (subst elapsed; lra).
    rewrite Hinv. do 2 f_equal. unfold Math_round. apply Zfloor_eq. lra.
  - rewrite Hinv. lra.
  - reflexivity.
  - subst elapsed. lra.
Qed.

End LoopClaims.

(** ** The tracking boundary under a failing solver *)

Section FailureClaims.
Import FaceTracking Rig.
Local Open Scope R_scope.

(** C6.  When [Face.solve] throws on a forwarded frame, the hook catches the
    error: it has called the solver once and does not call it again, it
    hands the inactive sample (no weights, zero rotation and position) to
    [onUpdate], and it returns normally.  The canvas stores that sample, and
    the next render tick runs as on any inactive sample, advancing the rig
    without writing to it. *)
Theorem solver_error_degrades_to_inactive
  (solve : NormalizedLandmarkList -> SolveOutcome) (app : App.State)
  (results : Results) (landmarks : NormalizedLandmarkList)
  (rest : list NormalizedLandmarkList) :
  ((frameCountRef (App.tracker app) + 1) mod 3 = 0)%N ->
  multiFaceLandmarks results = Some (landmarks :: rest) ->
  solve landmarks = Threw ->
  let app' := App.trackingFrame solve results app in
  (forall onUpdate,
     onResults solve onUpdate (App.tracker app) results
     = (mkState (frameCountRef (App.tracker app) + 1) false,
        Some (FaceSolve landmarks :: ConsoleWarn
              :: callOnUpdate onUpdate inactiveData))) /\
  (forall onUpdate evs,
     snd (onResults solve onUpdate (App.tracker app) results) = Some evs ->
     List.filter isFaceSolve evs = [FaceSolve landmarks]) /\
  (isActive inactiveData = false /\ blendShapes inactiveData = [] /\
   rotation inactiveData = XYZ.zero /\ position inactiveData = XYZ.zero) /\
  Avatar.currentTrackingData (App.avatar app') = Some inactiveData /\
  isTracking (App.tracker app') = false /\
  (forall now1 now2 vrm,
     Avatar.vrmRef (App.avatar app) = Some vrm ->
     exists deltaTime,
       Avatar.vrmRef (App.avatar (App.renderTick now1 now2 app'))
       = Some (update vrm deltaTime)).
Proof.
  intros Hgate Hface Hthrow app'.
  assert (forall onUpdate,
            onResults solve onUpdate (App.tracker app) results
            = (mkState (frameCountRef (App.tracker app) + 1) false,
               Some (FaceSolve landmarks :: ConsoleWarn
                     :: callOnUpdate onUpdate inactiveData))) as Hres.
  { intros onUpdate. unfold onResults.
    rewrite Hgate, Hface, Hthrow. reflexivity. }
  split; [exact Hres |].
  split.
  { intros onUpdate evs. rewrite Hres. intros [= <-].
    unfold callOnUpdate. now destruct onUpdate. }
  split; [repeat split |].
  assert (app' = App.mkState
                   (Avatar.handleFaceTrackingUpdate (App.avatar app) inactiveData)
                   (mkState (frameCountRef (App.tracker app) + 1) false)
                   (App.console app)) as Happ.
  { subst app'. unfold App.trackingFrame. rewrite Hres. reflexivity. }
  rewrite Happ. split; [reflexivity |]. split; [reflexivity |].
  intros now1 now2 vrm Hvrm.
  destruct (animate_vrm
              (Avatar.handleFaceTrackingUpdate (App.avatar app) inactiveData)
              vrm now1 now2 Hvrm) as (deltaTime & Hanim).
  exists deltaTime. exact Hanim.
Qed.

Lemma failing_solver_on_the_third_frame :
  ((2 + 1) mod 3 = 0)%N /\
  Avatar.currentTrackingData
    (App.avatar
       (App.trackingFrame (fun _ => Threw) (mkResults (Some [[XYZ.zero]]))
          (Scenario.app (Some Scenario.rig) (Some Scenario.sample))))
  = Some inactiveData.
Proof.
  split; [reflexivity |].
  apply (solver_error_degrades_to_inactive (fun _ => Threw)
           (Scenario.app (Some Scenario.rig) (Some Scenario.sample))
           (mkResults (Some [[XYZ.zero]])) [XYZ.zero] []
           eq_refl eq_refl eq_refl).
Defined.

End FailureClaims.

(** * Further properties of the code *)

(** ** The estimator as a function of the spectrum *)

Section EnvelopeFacts.
Import JsMath AudioLipSync.
Local Open Scope R_scope.

Lemma byteValue_zero (b : byte) : byteValue b = 0 <-> b = x00%byte.
Proof.
  unfold byteValue. split; [| now intros ->].
  intros H. apply eq_IZR in H.
  assert (Byte.to_N b = Byte.to_N x00) as E by (cbn; lia).
  pose proof (Byte.of_to_N b) as Hb. rewrite E in Hb. cbn in Hb. congruence.
Qed.

Lemma running_sum_shift (data : list byte) (acc : R) :
  fold_left (fun sum value => sum + byteValue value) data acc
  = acc + sumOf data.
Proof.
  unfold sumOf. revert acc. induction data as [|b rest IH]; intros acc.
  - cbn. lra.
  - cbn [fold_left]. rewrite IH, (IH (0 + byteValue b)). lra.
Qed.

Lemma sumOf_cons (b : byte) (rest : list byte) :
  sumOf (b :: rest) = byteValue b + sumOf rest.
Proof.
  unfold sumOf at 1. cbn [fold_left]. rewrite running_sum_shift. lra.
Qed.

Lemma sumOf_zero (data : list byte) :
  sumOf data = 0 <-> Forall (fun b => b = x00%byte) data.
Proof.
  induction data as [|b rest IH].
  - split; [constructor | reflexivity].
  - rewrite sumOf_cons.
    pose proof (byteValue_range b) as Hb. pose proof (sumOf_range rest) as Hr.
    pose proof (pos_INR (length rest)) as Hn.
    split.
    + intros H. constructor; [apply byteValue_zero; lra | apply IH; lra].
    + intros H. apply Forall_cons_iff in H as [Hb0 Hrest].
      apply IH in Hrest. apply byteValue_zero in Hb0. lra.
Qed.

Lemma normalizedVolume_zero (data : list byte) :
  data <> [] ->
  (normalizedVolume data = 0 <-> Forall (fun b => b = x00%byte) data).
Proof.
  intros Hne. rewrite <- sumOf_zero.
  unfold normalizedVolume, averageVolume.
  pose proof (INR_length_pos data Hne) as Hn.
  split; intros H.
  - assert (sumOf data / INR (length data) = 0) as H' by lra.
    apply (f_equal (fun t => t * INR (length data))) in H'.
    unfold Rdiv in H'. rewrite Rmult_assoc, Rinv_l in H' by lra. lra.
  - rewrite H. unfold Rdiv. lra.
Qed.

Lemma Math_pow_nonneg (x y : R) : 0 <= Math_pow x y.
Proof.
  unfold Math_pow. destruct (Rlt_dec 0 x); [| lra].
  unfold Rpower. left. apply exp_pos.
Qed.

Lemma Math_pow_eq_0 (x y : R) : 0 <= x -> (Math_pow x y = 0 <-> x = 0).
Proof.
  intros Hx. unfold Math_pow. destruct (Rlt_dec 0 x) as [Hpos | Hnot].
  - unfold Rpower. pose proof (exp_pos (y * ln x)). split; intros; lra.
  - split; intros; lra.
Qed.

Lemma Math_pow_monotone (x x' y : R) :
  0 <= y -> 0 <= x <= x' -> Math_pow x y <= Math_pow x' y.
Proof.
  intros Hy [H0 Hle]. unfold Math_pow at 1.
  destruct (Rlt_dec 0 x) as [Hpos | Hnot]; [| apply Math_pow_nonneg].
  rewrite Math_pow_pos by lra. apply Rle_Rpower_l; lra.
Qed.

Lemma Math_pow_strictly_above (x y : R) :
  0 < x < 1 -> 0 <= y < 1 -> x < Math_pow x y.
Proof.
  intros [H0 H1] [Hy0 Hy1]. rewrite Math_pow_pos by assumption.
  unfold Rpower. rewrite <- (exp_ln x) at 1 by assumption.
  apply exp_increasing.
  assert (ln x < 0) as Hl by (rewrite <- ln_1; apply ln_increasing; lra).
  nra.
Qed.

Lemma lipSyncData_zero :
  lipSyncData 0 = mkAudioLipSyncData 0 0 0 0 0 0.
Proof.
  unfold lipSyncData. rewrite Math_pow_0. rewrite !gt_false by lra. reflexivity.
Qed.

Lemma gated_monotone (s s' threshold gain : R) :
  0 <= s <= s' -> 0 <= gain ->
  (if gt s threshold then s * gain else 0)
  <= (if gt s' threshold then s' * gain else 0).
Proof.
  intros [H0 Hle] Hg. unfold gt.
  destruct (Rlt_dec threshold s); destruct (Rlt_dec threshold s'); nra.
Qed.

Lemma sumOf_monotone (data data' : list byte) :
  Forall2 (fun b b' => byteValue b <= byteValue b') data data' ->
  sumOf data <= sumOf data'.
Proof.
  induction 1 as [|b b' rest rest' Hb _ IH]; [lra |].
  rewrite !sumOf_cons. lra.
Qed.

Lemma sumOf_permutation (data data' : list byte) :
  Permutation data data' -> sumOf data = sumOf data'.
Proof.
  induction 1 as [| b l l' _ IH | a b l | l1 l2 l3 _ IH1 _ IH2].
  - reflexivity.
  - rewrite !sumOf_cons. lra.
  - rewrite !sumOf_cons. lra.
  - congruence.
Qed.

End EnvelopeFacts.

Section EnvelopeProperties.
Import JsMath AudioLipSync.
Local Open Scope R_scope.

(** X1.  Silence.  On a non-empty buffer the reported volume is zero exactly
    when every bin is zero, and then every viseme weight is zero as well; any
    non-zero bin gives a positive volume. *)
Theorem silence_iff_zero_spectrum (data : list byte) :
  data <> [] ->
  let d := lipSyncData (normalizedVolume data) in
  (volume d = 0 <-> Forall (fun b => b = x00%byte) data) /\
  (Forall (fun b => b = x00%byte) data ->
   d = mkAudioLipSyncData 0 0 0 0 0 0) /\
  (~ Forall (fun b => b = x00%byte) data -> 0 < volume d).
Proof.
  intros Hne d.
  pose proof (normalizedVolume_range data Hne) as [Hv0 Hv1].
  assert (volume d = 0 <-> Forall (fun b => b = x00%byte) data) as Hiff.
  { rewrite <- (normalizedVolume_zero data Hne). subst d. cbn [volume lipSyncData].
    now apply Math_pow_eq_0. }
  split; [exact Hiff |]. split.
  - intros Hall. apply (normalizedVolume_zero data Hne) in Hall.
    subst d. rewrite Hall. apply lipSyncData_zero.
  - intros Hsome.
    assert (0 <= volume d) as Hnn by (subst d; apply Math_pow_nonneg).
    destruct Hnn as [Hpos | Hzero]; [exact Hpos |].
    exfalso. apply Hsome, Hiff. now symmetry.
Qed.

Lemma silence_on_two_bins :
  [x00; x00]%byte <> [] /\
  lipSyncData (normalizedVolume [x00; x00]%byte)
  = mkAudioLipSyncData 0 0 0 0 0 0.
Proof.
  assert ([x00; x00]%byte <> []) as H by discriminate.
  split; [exact H |].
  apply (silence_iff_zero_spectrum [x00; x00]%byte H).
  repeat constructor.
Defined.

(** X2.  Monotonicity.  If every bin of one spectrum is at least as large as
    the same bin of another, its sample is at least as large in the volume
    and in each of the five viseme weights. *)
Theorem louder_spectrum_louder_sample (data data' : list byte) :
  data <> [] ->
  Forall2 (fun b b' => byteValue b <= byteValue b') data data' ->
  let d := lipSyncData (normalizedVolume data) in
  let d' := lipSyncData (normalizedVolume data') in
  volume d <= volume d' /\
  visemeA d <= visemeA d' /\ visemeI d <= visemeI d' /\
  visemeU d <= visemeU d' /\ visemeE d <= visemeE d' /\
  visemeO d <= visemeO d'.
Proof.
  intros Hne Hle d d'.
  assert (length data = length data') as Hlen by (eapply Forall2_length; eauto).
  pose proof (normalizedVolume_range data Hne) as [Hv0 Hv1].
  assert (normalizedVolume data <= normalizedVolume data') as Hv.
  { unfold normalizedVolume, averageVolume. rewrite <- Hlen.
    pose proof (INR_length_pos data Hne) as Hn.
    pose proof (sumOf_monotone data data' Hle) as Hs.
    pose proof (Rinv_0_lt_compat _ Hn) as Hi.
    unfold Rdiv. nra. }
  assert (0 <= Math_pow (normalizedVolume data) 0.7
          <= Math_pow (normalizedVolume data') 0.7) as Hs.
  { split; [apply Math_pow_nonneg | apply Math_pow_monotone; lra]. }
  subst d d'. cbn [volume visemeA visemeI visemeU visemeE visemeO lipSyncData].
  split; [apply Hs |].
  repeat split; apply gated_monotone; (exact Hs || lra).
Qed.

Lemma louder_on_one_bin :
  [x10]%byte <> [] /\
  volume (lipSyncData (normalizedVolume [x10]%byte))
  <= volume (lipSyncData (normalizedVolume [x20]%byte)).
Proof.
  assert ([x10]%byte <> []) as H by discriminate.
  assert (Forall2 (fun b b' => byteValue b <= byteValue b') [x10]%byte [x20]%byte)
    as H2.
  { constructor; [| constructor]. unfold byteValue. apply IZR_le. cbn. lia. }
  split; [exact H |].
  apply (louder_spectrum_louder_sample [x10]%byte [x20]%byte H H2).
Defined.

(** X3.  The mouth shapes switch on in a fixed order as the level rises: U,
    then O, I, E and last A.  Whenever A is moving all five are, and then
    their weights are ordered as their gains. *)
Theorem viseme_activation_is_nested (v : R) :
  let d := lipSyncData v in
  (0 < visemeA d -> 0 < visemeE d) /\
  (0 < visemeE d -> 0 < visemeI d) /\
  (0 < visemeI d -> 0 < visemeO d) /\
  (0 < visemeO d -> 0 < visemeU d) /\
  (0 < visemeA d ->
   visemeU d <= visemeE d <= visemeI d /\ visemeI d <= visemeO d <= visemeA d).
Proof.
  intros d. subst d. cbn [visemeA visemeI visemeU visemeE visemeO lipSyncData].
  pose proof (Math_pow_nonneg v 0.7) as Hs. set (s := Math_pow v 0.7) in *.
  unfold gt.
  destruct (Rlt_dec 0.1 s); destruct (Rlt_dec 0.07 s); destruct (Rlt_dec 0.05 s);
    destruct (Rlt_dec 0.04 s); destruct (Rlt_dec 0.03 s);
    repeat split; intros; lra.
Qed.

(** X4.  No small mouth movement.  A viseme weight is either exactly zero
    or already above its threshold times its gain. *)
Theorem viseme_weights_jump_at_threshold (v : R) :
  let d := lipSyncData v in
  (visemeA d = 0 \/ 0.08 < visemeA d) /\
  (visemeI d = 0 \/ 0.03 < visemeI d) /\
  (visemeU d = 0 \/ 0.012 < visemeU d) /\
  (visemeE d = 0 \/ 0.035 < visemeE d) /\
  (visemeO d = 0 \/ 0.028 < visemeO d).
Proof.
  intros d. subst d. cbn [visemeA visemeI visemeU visemeE visemeO lipSyncData].
  set (s := Math_pow v 0.7). unfold gt.
  repeat split;
    match goal with |- context [Rlt_dec ?t s] => destruct (Rlt_dec t s) end;
    (left; reflexivity) || (right; lra).
Qed.

(** X5.  The sample depends on the spectrum only through the sum of its
    bins: reordering the bins changes nothing. *)
Theorem sample_ignores_bin_order (data data' : list byte) :
  Permutation data data' ->
  lipSyncData (normalizedVolume data) = lipSyncData (normalizedVolume data').
Proof.
  intros Hperm. f_equal. unfold normalizedVolume, averageVolume.
  now rewrite (sumOf_permutation data data' Hperm), (Permutation_length Hperm).
Qed.

Lemma swapped_bins_same_sample :
  Permutation [x01; x02]%byte [x02; x01]%byte /\
  lipSyncData (normalizedVolume [x01; x02]%byte)
  = lipSyncData (normalizedVolume [x02; x01]%byte).
Proof.
  assert (Permutation [x01; x02]%byte [x02; x01]%byte) as H by apply perm_swap.
  split; [exact H |].
  exact (sample_ignores_bin_order [x01; x02]%byte [x02; x01]%byte H).
Defined.

(** X6.  The power law lifts quiet input: for a normalised volume in [0,1]
    the reported volume is never below it and never above 1, and the two
    agree only at 0 and at 1. *)
Theorem compression_lifts_volume (v : R) :
  0 <= v <= 1 ->
  v <= volume (lipSyncData v) <= 1 /\
  (volume (lipSyncData v) = v <-> v = 0 \/ v = 1).
Proof.
  intros [H0 H1]. cbn [volume lipSyncData].
  pose proof (Math_pow_range v 0.7 (conj H0 H1) ltac:(lra)) as [_ Hup].
  destruct H0 as [Hpos | <-].
  - destruct H1 as [Hlt | ->].
    + pose proof (Math_pow_strictly_above v 0.7 (conj Hpos Hlt) ltac:(lra)) as Hs.
      split; [lra |]. split; [intros E; lra | intros [E | E]; lra].
    + rewrite Math_pow_1. split; [lra |]. split; auto.
  - rewrite Math_pow_0. split; [lra |]. split; auto.
Qed.

Lemma compression_at_a_quarter :
  0 <= 1 / 4 <= 1 /\ 1 / 4 <= volume (lipSyncData (1 / 4)) <= 1.
Proof.
  assert (0 <= 1 / 4 <= 1) as H by lra.
  split; [exact H |].
  apply (compression_lifts_volume (1 / 4) H).
Defined.

End EnvelopeProperties.

(** ** The life cycle of the audio hook *)

Section AudioHookProperties.
Import JsMath AudioLipSync AudioHook.
Local Open Scope R_scope.

Lemma repeat_nonempty (n : nat) : (0 < n)%nat -> repeat x00%byte n <> [].
Proof. destruct n; [lia | discriminate]. Qed.

(** X7.  After [stop] the hook is silent: a run of [analyzeAudio] that was
    still pending emits nothing, changes nothing and requests no further
    run, whatever [enabled] says and whatever the microphone delivers; both
    flags are down; and stopping twice is the same as stopping once. *)
Theorem stop_silences_the_estimator
  (h : Hook) (enabled : bool) (nextId : positive) (snapshot : list byte) :
  fire enabled nextId (stop h) = (stop h, None) /\
  fire enabled nextId (hear snapshot (stop h)) = (stop h, None) /\
  animationFrameRef (stop h) = None /\
  isInitialized (stop h) = false /\ isActive (stop h) = false /\
  stop (stop h) = stop h.
Proof.
  repeat split.
  unfold stop. cbn. now destruct (audioContextRef h) as [[| |]|].
Qed.

(** X8.  A granted microphone starts the estimator at once: the hook holds a
    buffer of 128 bins, has emitted one sample, computed from that buffer
    and within the bounds of the estimator, and has requested the next run.
    A rejected request emits nothing, leaves the refs of the estimator as
    they were and records an error message. *)
Theorem granted_microphone_emits_first_sample
  (h : Hook) (stream : MediaStream) (snapshot : list byte) (nextId : positive) :
  let started := initializeMicrophone (Granted stream) snapshot true nextId h in
  (exists buffer,
     dataArrayRef (fst started) = Some buffer /\
     length buffer = 128%nat /\
     (length snapshot = 128%nat -> buffer = snapshot) /\
     snd started = Some (lipSyncData (normalizedVolume buffer)) /\
     0 <= volume (lipSyncData (normalizedVolume buffer)) <= 1) /\
  isInitialized (fst started) = true /\
  isActive (fst started) = true /\
  error (fst started) = None /\
  animationFrameRef (fst started) = Some nextId /\
  (forall message,
     let failed := initializeMicrophone (Rejected message) snapshot true nextId h in
     snd failed = None /\
     refs (fst failed) = refs h /\
     isInitialized (fst failed) = isInitialized h /\
     error (fst failed) <> None).
Proof.
  intros started.
  set (buffer := getByteFrequencyData (mkAnalyserNode snapshot)
                   (repeat x00%byte frequencyBinCount)).
  assert (length buffer = 128%nat) as Hlen.
  { subst buffer. rewrite length_getByteFrequencyData. apply repeat_length. }
  assert (buffer <> []) as Hne.
  { intros E. rewrite E in Hlen. discriminate Hlen. }
  split.
  - exists buffer. split; [reflexivity |]. split; [exact Hlen |].
    split; [| split; [reflexivity |]].
    + intros Hs. subst buffer. unfold getByteFrequencyData.
      cbn [frequencyData]. rewrite repeat_length, Hs.
      change frequencyBinCount with 128%nat.
      rewrite <- Hs at 1. rewrite firstn_all.
      rewrite skipn_all2 by (rewrite repeat_length; lia).
      apply app_nil_r.
    + apply (lipSyncData_bounded _ (normalizedVolume_range buffer Hne)).
  - do 4 (split; [reflexivity |]).
    intros message failed. subst failed. cbn.
    repeat split. discriminate.
Qed.


End AudioHookProperties.

(** ** The decimator from any state, and the tracking flag *)

Section DecimatorFacts.
Import FaceTracking Runs.

Variable solve : NormalizedLandmarkList -> SolveOutcome.

Lemma forwardedFrom_shift (outs : list (option (list Event))) :
  forall (first k p : nat),
    In p (forwardedFrom first outs) <-> In (k + p)%nat (forwardedFrom (k + first) outs).
Proof.
  induction outs as [|out rest IH]; intros first k p; [reflexivity |].
  cbn [forwardedFrom]. specialize (IH (S first) k p).
  replace (k + S first)%nat with (S (k + first)) in IH by lia.
  destruct out as [evs|]; [| exact IH].
  cbn [In]. rewrite IH. split; intros [H | H]; auto; left; lia.
Qed.

Lemma forwardedFrom_length (outs : list (option (list Event))) :
  forall first first' : nat,
    length (forwardedFrom first outs) = length (forwardedFrom first' outs).
Proof.
  induction outs as [|out rest IH]; intros first first'; [reflexivity |].
  cbn [forwardedFrom]. destruct out; cbn [length]; auto.
Qed.

Lemma one_multiple_in_three (c : nat) :
  length (List.filter (fun p => p mod 3 =? 0) (seq (S c) 3)) = 1%nat.
Proof.
  cbn [seq List.filter].
  destruct (Nat.eqb_spec (S c mod 3) 0) as [H1 | H1];
    destruct (Nat.eqb_spec (S (S c) mod 3) 0) as [H2 | H2];
    destruct (Nat.eqb_spec (S (S (S c)) mod 3) 0) as [H3 | H3];
    try reflexivity; exfalso;
    pose proof (Nat.div_mod_eq (S c) 3);
    pose proof (Nat.div_mod_eq (S (S c)) 3);
    pose proof (Nat.div_mod_eq (S (S (S c))) 3);
    pose proof (Nat.mod_upper_bound (S c) 3 ltac:(lia));
    pose proof (Nat.mod_upper_bound (S (S c)) 3 ltac:(lia));
    pose proof (Nat.mod_upper_bound (S (S (S c))) 3 ltac:(lia));
    lia.
Qed.

Lemma finalState_frameCount (onUpdate : bool) (frames : list Results) :
  forall st : State,
    frameCountRef (finalState solve onUpdate st frames)
    = (frameCountRef st + N.of_nat (length frames))%N.
Proof.
  induction frames as [|results rest IH]; intros st.
  - cbn. lia.
  - cbn [finalState length]. rewrite IH, onResults_frameCount. lia.
Qed.

Lemma run_depends_on_count (onUpdate : bool) (frames : list Results) :
  forall st st' : State,
    frameCountRef st = frameCountRef st' ->
    run solve onUpdate st frames = run solve onUpdate st' frames.
Proof.
  induction frames as [|results rest IH]; intros st st' Hc; [reflexivity |].
  cbn [run].
  pose proof (onResults_frameCount solve onUpdate st results) as H1.
  pose proof (onResults_frameCount solve onUpdate st' results) as H2.
  assert (snd (onResults solve onUpdate st results)
          = snd (onResults solve onUpdate st' results)) as Hout.
  { unfold onResults. rewrite Hc. destruct (negb _); [reflexivity |].
    destruct (multiFaceLandmarks results) as [[|landmarks more]|]; try reflexivity.
    destruct (solve landmarks) as [[face|]|]; reflexivity. }
  destruct (onResults solve onUpdate st results) as [s1 o1].
  destruct (onResults solve onUpdate st' results) as [s2 o2].
  cbn [fst snd] in *. subst o2. f_equal. apply IH. congruence.
Qed.

Lemma last_default {T : Type} (l : list T) :
  forall (t d d' : T), List.last (t :: l) d = List.last (t :: l) d'.
Proof.
  induction l as [|b l IH]; intros t d d'; [reflexivity |].
  change (List.last (t :: b :: l) d) with (List.last (b :: l) d).
  change (List.last (t :: b :: l) d') with (List.last (b :: l) d').
  apply IH.
Qed.

Lemma last_app_fold {T : Type} (l1 l2 : list T) (d : T) :
  List.last (l1 ++ l2) d = List.last l2 (List.last l1 d).
Proof.
  revert d. induction l1 as [|a l1 IH]; intros d; [reflexivity |].
  destruct l1 as [|b l1].
  - destruct l2 as [|t l2]; [reflexivity |].
    change (List.last ([a] ++ t :: l2) d) with (List.last (t :: l2) d).
    apply last_default.
  - change (List.last ((a :: b :: l1) ++ l2) d) with (List.last ((b :: l1) ++ l2) d).
    change (List.last (a :: b :: l1) d) with (List.last (b :: l1) d). apply IH.
Qed.

Lemma emitted_cons (out : option (list Event)) (rest : list (option (list Event))) :
  emitted (out :: rest)
  = match out with Some evs => emittedBy evs | None => [] end ++ emitted rest.
Proof. reflexivity. Qed.

Lemma onResults_flag (st : State) (results : Results) :
  isTracking (fst (onResults solve true st results))
  = List.last (map isActive
            match snd (onResults solve true st results) with
            | Some evs => emittedBy evs
            | None => []
            end)
         (isTracking st).
Proof.
  unfold onResults. destruct (negb _); [reflexivity |].
  destruct (multiFaceLandmarks results) as [[|landmarks more]|]; try reflexivity.
  destruct (solve landmarks) as [[face|]|]; reflexivity.
Qed.

End DecimatorFacts.

Section DecimatorProperties.
Import FaceTracking Runs.

(** X10.  The decimator keeps its phase.  From any hook state, the frame at
    position [p] of a run is forwarded exactly when the counter it started
    from plus [p] is a multiple of 3; of any three consecutive frames exactly
    one is forwarded; and every frame, forwarded or not, advances the
    counter by one. *)
Theorem decimation_phase_from_any_state
  (solve : NormalizedLandmarkList -> SolveOutcome) (onUpdate : bool)
  (st : State) (frames : list Results) :
  let outs := run solve onUpdate st frames in
  (forall p : nat,
     In p (forwardedPositions outs) <->
     (1 <= p <= length frames /\
      (N.to_nat (frameCountRef st) + p) mod 3 = 0)%nat) /\
  (length frames = 3%nat -> length (forwardedPositions outs) = 1%nat) /\
  frameCountRef (finalState solve onUpdate st frames)
  = (frameCountRef st + N.of_nat (length frames))%N.
Proof.
  intros outs. set (c := N.to_nat (frameCountRef st)).
  assert (forwardedFrom (S c) outs
          = List.filter (fun p => p mod 3 =? 0) (seq (S c) (length frames))) as Hf.
  { apply forwardedFrom_run. subst c. lia. }
  split; [| split].
  - intros p. unfold forwardedPositions.
    rewrite (forwardedFrom_shift outs 1 c p).
    replace (c + 1)%nat with (S c) by lia.
    rewrite Hf, filter_In, in_seq, Nat.eqb_eq. lia.
  - intros Hlen. unfold forwardedPositions.
    rewrite (forwardedFrom_length outs 1 (S c)), Hf, Hlen.
    apply one_multiple_in_three.
  - apply finalState_frameCount.
Qed.

Lemma three_frames_after_one :
  length [mkResults None; mkResults None; mkResults None] = 3%nat /\
  length (forwardedPositions
            (run (fun _ => Threw) true (mkState 1 true)
                 [mkResults None; mkResults None; mkResults None])) = 1%nat.
Proof.
  split; [reflexivity |].
  apply (decimation_phase_from_any_state (fun _ => Threw) true (mkState 1 true)
           [mkResults None; mkResults None; mkResults None]).
  reflexivity.
Defined.

(** X11.  The tracking flag follows the samples.  With an [onUpdate]
    callback in place, after any run the flag [isTracking] equals the
    [isActive] field of the last sample the run emitted, and is unchanged
    when the run emitted none. *)
Theorem tracking_flag_follows_last_sample
  (solve : NormalizedLandmarkList -> SolveOutcome)
  (st : State) (frames : list Results) :
  isTracking (finalState solve true st frames)
  = List.last (map isActive (emitted (run solve true st frames))) (isTracking st).
Proof.
  revert st. induction frames as [|results rest IH]; intros st; [reflexivity |].
  cbn [finalState run].
  pose proof (onResults_flag solve st results) as Hflag.
  destruct (onResults solve true st results) as [st' out].
  cbn [fst snd] in *.
  rewrite emitted_cons, map_app, last_app_fold, <- Hflag. apply IH.
Qed.

End DecimatorProperties.

(** ** Stopping the tracker, and what the producer puts in a sample *)

Section ProducerProperties.
Import JsMath FaceTracking Spec.
Local Open Scope R_scope.

Lemma orZero_id (x : R) : orZero x = x.
Proof. unfold orZero. destruct (Req_dec_T x 0); congruence. Qed.

Lemma Math_max_0_nonneg (x : R) : 0 <= Math_max 0 x.
Proof. unfold Math_max. apply Rmax_l. Qed.

Lemma Math_max_0_opposite (x : R) : Math_max 0 x = 0 \/ Math_max 0 (- x) = 0.
Proof.
  unfold Math_max, Rmax.
  destruct (Rle_dec 0 x); destruct (Rle_dec 0 (- x)); auto; right; lra.
Qed.

Lemma opposite_exclusive (x : R) :
  exists u d : R,
    Some (Math_max 0 (orZero x)) = Some u /\
    Some (Math_max 0 (- orZero x)) = Some d /\
    0 <= u /\ 0 <= d /\ (u = 0 \/ d = 0).
Proof.
  exists (Math_max 0 (orZero x)), (Math_max 0 (- orZero x)).
  repeat split; try apply Math_max_0_nonneg. apply Math_max_0_opposite.
Qed.

Lemma exclusive_swap (x : R) :
  exists u d : R,
    Some (Math_max 0 (- orZero x)) = Some u /\
    Some (Math_max 0 (orZero x)) = Some d /\
    0 <= u /\ 0 <= d /\ (u = 0 \/ d = 0).
Proof.
  destruct (opposite_exclusive x) as (u & d & Hu & Hd & H0 & H1 & H).
  exists d, u. repeat split; try assumption. tauto.
Qed.

(** X12.  Stopping the tracker does not reset the decimator.  After [stop]
    the hook forwards the same frames and emits the same samples as it would
    have without it, since the frame counter is kept; the status line no
    longer reads as tracking and the border is orange; stopping twice is
    stopping once.  In any state, a status line that reads as tracking comes
    with a green border and an initialised hook. *)
Theorem stopping_keeps_the_phase
  (solve : NormalizedLandmarkList -> SolveOutcome) (onUpdate : bool)
  (h : TrackingHook.Hook) (frames : list Results) :
  run solve onUpdate (TrackingHook.core (TrackingHook.stop h)) frames
  = run solve onUpdate (TrackingHook.core h) frames /\
  TrackingHook.status (TrackingHook.stop h) <> TrackingHook.TrackingActive /\
  TrackingHook.border (TrackingHook.stop h) = TrackingHook.Orange /\
  (TrackingHook.truthy (TrackingHook.error h) = None ->
   TrackingHook.status (TrackingHook.stop h) = TrackingHook.Initializing) /\
  TrackingHook.stop (TrackingHook.stop h) = TrackingHook.stop h /\
  (TrackingHook.status h = TrackingHook.TrackingActive ->
   TrackingHook.border h = TrackingHook.Green /\
   TrackingHook.isInitialized h = true).
Proof.
  split; [now apply run_depends_on_count |].
  unfold TrackingHook.status, TrackingHook.border, TrackingHook.stop.
  cbn [TrackingHook.core TrackingHook.error TrackingHook.isInitialized
       isTracking frameCountRef negb].
  destruct (TrackingHook.truthy (TrackingHook.error h)) as [m|].
  - repeat split; try discriminate.
  - split; [discriminate |]. split; [reflexivity |]. split; [reflexivity |].
    split; [reflexivity |].
    destruct (TrackingHook.isInitialized h); cbn [negb]; [| discriminate].
    destruct (isTracking (TrackingHook.core h)); [auto | discriminate].
Qed.

(** X13.  Opposite directions never move together.  In every sample built
    from a solved face, the weights of looking up and looking down, of
    looking in and looking out, and of lowering and raising the brows are
    non-negative and at most one of each pair is non-zero; and the two eyes
    carry the same gaze: up and down are equal on both sides, and one eye
    looks in exactly as much as the other looks out. *)
Theorem opposite_weights_are_exclusive (face : TFace) :
  let bs := blendShapes (trackingData face) in
  exclusive bs "eyeLookUpLeft" "eyeLookDownLeft" /\
  exclusive bs "eyeLookUpRight" "eyeLookDownRight" /\
  exclusive bs "eyeLookInLeft" "eyeLookOutLeft" /\
  exclusive bs "eyeLookOutRight" "eyeLookInRight" /\
  exclusive bs "browUpLeft" "browDownLeft" /\
  exclusive bs "browUpRight" "browDownRight" /\
  exclusive bs "browUpCenter" "browDownLeft" /\
  valueOf bs "eyeLookUpLeft" = valueOf bs "eyeLookUpRight" /\
  valueOf bs "eyeLookDownLeft" = valueOf bs "eyeLookDownRight" /\
  valueOf bs "eyeLookInLeft" = valueOf bs "eyeLookOutRight" /\
  valueOf bs "eyeLookOutLeft" = valueOf bs "eyeLookInRight".
Proof.
  intros bs. subst bs. unfold exclusive.
  cbn [blendShapes trackingData valueOf String.eqb Ascii.eqb Bool.eqb].
  repeat split; try reflexivity; apply opposite_exclusive.
Qed.

(** X14.  The producer and the mapping table agree.  The names of a sample
    built from a solved face are exactly the keys of the table, in the same
    order and without repetition; each resolves to a channel name the table
    can reach, never to an inherited built-in; so a sample stands for
    exactly 20 [setValue] calls. *)
Theorem producer_names_are_the_table_keys (face : TFace) :
  let bs := blendShapes (trackingData face) in
  map fst bs = map fst Avatar.mapping /\
  List.NoDup (map fst bs) /\
  Forall (fun entry =>
            exists target,
              Avatar.mapToVRMBlendShape (fst entry) = Some (Rig.Name target) /\
              In target targets) bs /\
  length (setValueCalls bs) = 20%nat.
Proof.
  intros bs. subst bs. split; [reflexivity |]. split; [| split; [| reflexivity]].
  - cbn [blendShapes trackingData map fst].
    repeat (constructor; [cbn [In]; intuition discriminate |]). constructor.
  - cbn [blendShapes trackingData].
    repeat (constructor; [eexists; split; [reflexivity | cbn; tauto] |]).
    constructor.
Qed.

End ProducerProperties.

(** ** The applier on the channels of the rig *)

Section ChannelFacts.
Import JsMath Rig Avatar Spec.
Local Open Scope R_scope.

Lemma settled_cons (c : string) (entry : string * R) (rest : list (string * R)) (w0 : R) :
  settled c (entry :: rest) w0 = settled c rest (settle c w0 entry).
Proof. reflexivity. Qed.

Lemma settled_app (c : string) (l1 l2 : list (string * R)) (w0 : R) :
  settled c (l1 ++ l2) w0 = settled c l2 (settled c l1 w0).
Proof. unfold settled. apply fold_left_app. Qed.

Lemma applyBlendShape_weights (vrm : VRM) (em : VRMExpressionManager)
  (entry : string * R) :
  expressionManager vrm = Some em ->
  exists em',
    expressionManager (applyBlendShape vrm entry) = Some em' /\
    throwsOnUnknown em' = throwsOnUnknown em /\
    forall c, weights em' !! c = (fun w => settle c w entry) <$> weights em !! c.
Proof.
  intros Hem. destruct entry as [s v]. unfold applyBlendShape, settle.
  cbn [fst snd]. rewrite Hem.
  destruct (mapToVRMBlendShape s) as [[t | m]|].
  - destruct (weights em !! t) as [w|] eqn:Ht.
    + unfold setValue. rewrite Ht.
      eexists. split; [reflexivity |]. split; [reflexivity |].
      intros c. cbn [weights]. destruct (String.eqb_spec t c) as [-> | Hne].
      * rewrite lookup_insert_eq, Ht. reflexivity.
      * rewrite lookup_insert_ne by assumption.
        now destruct (weights em !! c).
    + assert (forall c, weights em !! c
                        = (fun w => if String.eqb t c then clamp01 v else w)
                            <$> weights em !! c) as Hsame.
      { intros c. destruct (String.eqb_spec t c) as [-> | Hne].
        - now rewrite Ht.
        - now destruct (weights em !! c). }
      destruct (setValue_unknown em (Name t) (clamp01 v) Ht) as [-> | ->];
        cbn [logged expressionManager];
        exists em; rewrite ?Hem; (split; [reflexivity |]); (split; [reflexivity |]);
        intros c; rewrite (Hsame c) at 1; now destruct (weights em !! c).
  - destruct (setValue_unknown em (Builtin m) (clamp01 v) Logic.I) as [-> | ->];
      cbn [logged expressionManager];
      exists em; rewrite ?Hem; (split; [reflexivity |]); (split; [reflexivity |]);
      intros c; now destruct (weights em !! c).
  - exists em. split; [exact Hem |]. split; [reflexivity |].
    intros c. now destruct (weights em !! c).
Qed.

Lemma fold_applyBlendShape_weights (blendShapes : list (string * R)) :
  forall (vrm : VRM) (em : VRMExpressionManager),
    expressionManager vrm = Some em ->
    exists em',
      expressionManager (fold_left applyBlendShape blendShapes vrm) = Some em' /\
      throwsOnUnknown em' = throwsOnUnknown em /\
      forall c, weights em' !! c = settled c blendShapes <$> weights em !! c.
Proof.
  induction blendShapes as [|entry rest IH]; intros vrm em Hem.
  - exists em. split; [exact Hem |]. split; [reflexivity |].
    intros c. now destruct (weights em !! c).
  - cbn [fold_left].
    destruct (applyBlendShape_weights vrm em entry Hem) as (em1 & H1 & Ht1 & Hw1).
    destruct (IH _ em1 H1) as (em' & H' & Ht' & Hw').
    exists em'. split; [exact H' |]. split; [congruence |].
    intros c. rewrite Hw', Hw1. now destruct (weights em !! c).
Qed.

(** The weight of every channel after a sample has been applied. *)
Lemma applyBlendShapes_weightOf (vrm : VRM) (blendShapes : list (string * R))
  (c : string) :
  weightOf (applyBlendShapes vrm blendShapes) c
  = settled c blendShapes <$> weightOf vrm c.
Proof.
  unfold applyBlendShapes, weightOf.
  destruct (expressionManager vrm) as [em|] eqn:Hem; [| now rewrite Hem].
  destruct (fold_applyBlendShape_weights blendShapes vrm em Hem) as (em' & H' & _ & Hw).
  now rewrite H', Hw.
Qed.

Lemma applyBlendShapes_others (vrm : VRM) (blendShapes : list (string * R)) :
  humanoid (applyBlendShapes vrm blendShapes) = humanoid vrm /\
  animationTime (applyBlendShapes vrm blendShapes) = animationTime vrm.
Proof.
  unfold applyBlendShapes. destruct (expressionManager vrm) as [em|] eqn:Hem; [| auto].
  destruct (fold_applyBlendShape_calls blendShapes vrm) as (_ & Hh & Ht & _);
    [congruence | auto].
Qed.

Lemma settled_untouched (c : string) (blendShapes : list (string * R)) (w0 : R) :
  Forall (fun entry => mapToVRMBlendShape (fst entry) <> Some (Name c)) blendShapes ->
  settled c blendShapes w0 = w0.
Proof.
  induction 1 as [|entry rest Hentry _ IH]; [reflexivity |].
  rewrite settled_cons. unfold settle.
  destruct (mapToVRMBlendShape (fst entry)) as [[t | m]|]; try exact IH.
  destruct (String.eqb_spec t c) as [-> | _]; [congruence | exact IH].
Qed.

Lemma settled_range (c : string) (blendShapes : list (string * R)) :
  forall w0, 0 <= w0 <= 1 -> 0 <= settled c blendShapes w0 <= 1.
Proof.
  induction blendShapes as [|entry rest IH]; intros w0 H0; [exact H0 |].
  rewrite settled_cons. apply IH. unfold settle.
  destruct (mapToVRMBlendShape (fst entry)) as [[t | m]|]; try exact H0.
  destruct (String.eqb t c); [apply clamp01_range | exact H0].
Qed.

Lemma settled_idempotent (c : string) (blendShapes : list (string * R)) :
  forall w0,
    settled c blendShapes (settled c blendShapes w0) = settled c blendShapes w0.
Proof.
  induction blendShapes as [|entry rest IH] using rev_ind; intros w0; [reflexivity |].
  rewrite !settled_app.
  assert (forall w, settled c [entry] w = settle c w entry) as Hone by reflexivity.
  rewrite !Hone. unfold settle.
  destruct (mapToVRMBlendShape (fst entry)) as [[t | m]|]; try apply IH.
  destruct (String.eqb t c); [reflexivity | apply IH].
Qed.

Lemma clamp01_max0 (x : R) : clamp01 (Math_max 0 x) = clamp01 x.
Proof.
  destruct (Rle_dec 0 x) as [Hx | Hx].
  - unfold Math_max at 1. now rewrite Rmax_right.
  - unfold Math_max at 1. rewrite Rmax_left by lra.
    rewrite (clamp01_below x) by lra. apply clamp01_inside. lra.
Qed.

End ChannelFacts.

Section ChannelProperties.
Import JsMath Rig Avatar Spec.
Local Open Scope R_scope.

(** X15.  Last write wins.  When several entries of a sample are mapped to
    the same channel, the channel ends up with the clamped value of the last
    of them in the order of the sample, whatever came before. *)
Theorem last_write_wins
  (vrm : VRM) (before after : list (string * R))
  (shapeName channel : string) (value : R) :
  mapToVRMBlendShape shapeName = Some (Name channel) ->
  Forall (fun entry => mapToVRMBlendShape (fst entry) <> Some (Name channel)) after ->
  weightOf vrm channel <> None ->
  weightOf (applyBlendShapes vrm (before ++ (shapeName, value) :: after)) channel
  = Some (clamp01 value).
Proof.
  intros Hmap Hafter Hhas. rewrite applyBlendShapes_weightOf.
  destruct (weightOf vrm channel) as [w0|]; [| congruence].
  cbn [fmap option_fmap option_map]. f_equal.
  rewrite settled_app, settled_cons, (settled_untouched _ _ _ Hafter).
  unfold settle. cbn [fst snd]. rewrite Hmap. now rewrite String.eqb_refl.
Qed.

Lemma right_smile_overrides_left :
  mapToVRMBlendShape "mouthSmileRight" = Some (Name "joy") /\
  weightOf (applyBlendShapes Scenario.fullRig
              ([("mouthSmileLeft", 0.2)] ++ ("mouthSmileRight", 0.7)
                 :: [("mouthFunnel", 0.4)])) "joy"
  = Some (clamp01 0.7).
Proof.
  split; [reflexivity |].
  apply (last_write_wins Scenario.fullRig [("mouthSmileLeft", 0.2)]
           [("mouthFunnel", 0.4)] "mouthSmileRight" "joy" 0.7 eq_refl).
  - constructor; [discriminate | constructor].
  - discriminate.
Defined.

(** X16.  What the applier keeps.  Applying a sample never adds or removes a
    channel, never touches a bone or the animation state, leaves alone every
    channel no entry is mapped to, and keeps all weights within [0,1] if they
    were within [0,1] before. *)
Theorem applier_keeps_the_rig_well_formed
  (vrm : VRM) (blendShapes : list (string * R)) :
  let vrm' := applyBlendShapes vrm blendShapes in
  (forall c, weightOf vrm' c = None <-> weightOf vrm c = None) /\
  humanoid vrm' = humanoid vrm /\
  animationTime vrm' = animationTime vrm /\
  (forall c,
     Forall (fun entry => mapToVRMBlendShape (fst entry) <> Some (Name c))
            blendShapes ->
     weightOf vrm' c = weightOf vrm c) /\
  ((forall c w, weightOf vrm c = Some w -> 0 <= w <= 1) ->
   forall c w, weightOf vrm' c = Some w -> 0 <= w <= 1).
Proof.
  intros vrm'. subst vrm'.
  split; [| split; [| split; [| split]]].
  - intros c. rewrite applyBlendShapes_weightOf.
    destruct (weightOf vrm c); cbn; split; congruence.
  - apply applyBlendShapes_others.
  - apply applyBlendShapes_others.
  - intros c Hnone. rewrite applyBlendShapes_weightOf.
    destruct (weightOf vrm c) as [w0|]; [| reflexivity].
    cbn. now rewrite settled_untouched.
  - intros Hrange c w. rewrite applyBlendShapes_weightOf.
    destruct (weightOf vrm c) as [w0|] eqn:E; [| discriminate].
    cbn. intros [= <-]. apply settled_range. now apply (Hrange c).
Qed.

(** X17.  Applying the same sample again changes nothing: the rig has the
    same channels, bones and animation state after two applications as
    after one, so a sample that stays in the tracking cell over several ticks
    is harmless. *)
Theorem reapplying_a_sample_changes_nothing
  (vrm : VRM) (blendShapes : list (string * R)) :
  sameRig (applyBlendShapes (applyBlendShapes vrm blendShapes) blendShapes)
          (applyBlendShapes vrm blendShapes).
Proof.
  destruct (applyBlendShapes_others (applyBlendShapes vrm blendShapes) blendShapes)
    as [Hh Ht].
  split; [| split; assumption].
  unfold applyBlendShapes at 1 2 3.
  destruct (expressionManager vrm) as [em|] eqn:Hem; [| now rewrite Hem].
  destruct (fold_applyBlendShape_weights blendShapes vrm em Hem)
    as (em1 & H1 & Ht1 & Hw1).
  rewrite H1.
  destruct (fold_applyBlendShape_weights blendShapes _ em1 H1)
    as (em2 & H2 & Ht2 & Hw2).
  rewrite H2. f_equal.
  destruct em1 as [w1 t1], em2 as [w2 t2]. cbn [weights throwsOnUnknown] in *.
  f_equal; [| assumption].
  apply map_eq. intros c. rewrite Hw2, Hw1.
  destruct (weights em !! c) as [w0|]; [| reflexivity].
  cbn. f_equal. apply settled_idempotent.
Qed.

(** X18.  From the solved face to the rig.  After the sample built from a
    face has been applied, every channel the table can reach and the rig has
    holds the clamped signal of the face that belongs to it: the eye
    openings on the blinks, the pupil on the four look channels, the mouth
    shapes A, I, O, U on [aa], [joy], [oh], [ou], the brow on [angry] and
    [surprised].  The sources that share a channel carry the same value, so
    their order does not show.  Every other channel is left as it was. *)
Theorem solved_face_reaches_the_rig
  (vrm : VRM) (face : FaceTracking.TFace) (channel : string) :
  let vrm' := applyBlendShapes vrm (blendShapes (FaceTracking.trackingData face)) in
  (In channel targets -> weightOf vrm channel <> None ->
   weightOf vrm' channel = Some (clamp01 (faceValue face channel))) /\
  (~ In channel targets -> weightOf vrm' channel = weightOf vrm channel).
Proof.
  intros vrm'. subst vrm'. rewrite applyBlendShapes_weightOf. split.
  - intros Hin Hhas. destruct (weightOf vrm channel) as [w0|]; [| congruence].
    cbn [fmap option_fmap option_map]. f_equal.
    cbn [In targets] in Hin.
    repeat (destruct Hin as [<- | Hin];
            [cbv [settled settle fold_left blendShapes FaceTracking.trackingData
                  mapToVRMBlendShape ownProperty mapping fst snd faceValue
                  String.eqb Ascii.eqb Bool.eqb];
             rewrite ?orZero_id, ?clamp01_max0; reflexivity |]).
    destruct Hin.
  - intros Hout. destruct (weightOf vrm channel) as [w0|]; [| reflexivity].
    cbn [fmap option_fmap option_map]. f_equal.
    apply settled_untouched. cbn [blendShapes FaceTracking.trackingData].
    repeat (constructor;
            [cbn [fst]; intros H; apply Hout;
             match type of H with
             | mapToVRMBlendShape ?n = _ =>
                 let r := eval vm_compute in (mapToVRMBlendShape n) in
                 change (mapToVRMBlendShape n) with r in H
             end;
             injection H as <-; cbn; tauto |]).
    constructor.
Qed.

Lemma open_mouth_reaches_aa :
  In "aa" targets /\
  weightOf
    (applyBlendShapes Scenario.fullRig
       (blendShapes (FaceTracking.trackingData Scenario.face))) "aa"
  = Some (clamp01 0.9).
Proof.
  assert (In "aa" targets) as H by (cbn; tauto).
  split; [exact H |].
  apply (proj1 (solved_face_reaches_the_rig Scenario.fullRig Scenario.face "aa") H).
  discriminate.
Defined.

End ChannelProperties.

(** ** The head bone *)

Section HeadFacts.
Import JsMath Rig Avatar Spec.
Local Open Scope R_scope.

Lemma applyHeadRotation_others (vrm : VRM) (rot : XYZ.t) :
  expressionManager (applyHeadRotation vrm rot) = expressionManager vrm /\
  animationTime (applyHeadRotation vrm rot) = animationTime vrm.
Proof.
  unfold applyHeadRotation. destruct (humanoid vrm) as [h|]; [| auto].
  destruct (getNormalizedBoneNode h "head"); auto.
Qed.

Lemma applyHeadRotation_head (vrm : VRM) (h : VRMHumanoid) (r0 rot : XYZ.t) :
  humanoid vrm = Some h ->
  normalizedBones h !! "head" = Some r0 ->
  applyHeadRotation vrm rot
  = mkVRM (expressionManager vrm)
          (Some (setNormalizedBoneNode h "head"
                   (XYZ.mk (degToRad (XYZ.x rot * 0.5))
                           (degToRad (XYZ.y rot * 0.5))
                           (degToRad (XYZ.z rot * 0.5)))))
          (animationTime vrm)
          (calls vrm ++ [SetHeadRotationX (degToRad (XYZ.x rot * 0.5));
                         SetHeadRotationY (degToRad (XYZ.y rot * 0.5));
                         SetHeadRotationZ (degToRad (XYZ.z rot * 0.5))]).
Proof.
  intros Hh Hb. unfold applyHeadRotation, getNormalizedBoneNode.
  now rewrite Hh, Hb.
Qed.

Lemma applyHeadRotation_no_head (vrm : VRM) (rot : XYZ.t) :
  humanoid vrm = None \/
  (exists h, humanoid vrm = Some h /\ normalizedBones h !! "head" = None) ->
  applyHeadRotation vrm rot = vrm.
Proof.
  unfold applyHeadRotation, getNormalizedBoneNode.
  intros [Hh | (h & Hh & Hb)]; rewrite Hh; [reflexivity | now rewrite Hb].
Qed.

Lemma applyHeadRotation_humanoid (v v' : VRM) (rot : XYZ.t) :
  humanoid v = humanoid v' ->
  humanoid (applyHeadRotation v rot) = humanoid (applyHeadRotation v' rot).
Proof.
  intros H. unfold applyHeadRotation. rewrite <- H.
  destruct (humanoid v) as [h|] eqn:E; [| congruence].
  destruct (getNormalizedBoneNode h "head"); [reflexivity | congruence].
Qed.

Lemma applyBlendShape_manager (v v' : VRM) (entry : string * R) :
  expressionManager v = expressionManager v' ->
  expressionManager (applyBlendShape v entry)
  = expressionManager (applyBlendShape v' entry).
Proof.
  intros H. destruct entry as [s value]. unfold applyBlendShape. rewrite <- H.
  destruct (mapToVRMBlendShape s) as [name|]; [| exact H].
  destruct (expressionManager v) as [em|] eqn:E; [| congruence].
  destruct (setValue em name (clamp01 value)); cbn; congruence.
Qed.

Lemma applyBlendShapes_manager (blendShapes : list (string * R)) (v v' : VRM) :
  expressionManager v = expressionManager v' ->
  expressionManager (applyBlendShapes v blendShapes)
  = expressionManager (applyBlendShapes v' blendShapes).
Proof.
  intros H. unfold applyBlendShapes. rewrite <- H.
  destruct (expressionManager v) as [em|] eqn:E; [| congruence].
  assert (forall bs a b,
            expressionManager a = expressionManager b ->
            expressionManager (fold_left applyBlendShape bs a)
            = expressionManager (fold_left applyBlendShape bs b)) as Hfold.
  { induction bs as [|entry rest IH]; intros a b Hab; [exact Hab |].
    cbn [fold_left]. apply IH. now apply applyBlendShape_manager. }
  apply Hfold. congruence.
Qed.

Lemma applyTracking_animationTime (vrm : VRM) (data : option FaceTrackingData) :
  animationTime (applyTracking vrm data) = animationTime vrm.
Proof.
  unfold applyTracking. destruct data as [d|]; [| reflexivity].
  destruct (isActive d); [| reflexivity].
  destruct (applyHeadRotation_others (applyBlendShapes vrm (blendShapes d)) (rotation d))
    as [_ ->].
  apply applyBlendShapes_others.
Qed.

End HeadFacts.

Section HeadProperties.
Import JsMath Rig Avatar Spec.
Local Open Scope R_scope.

(** X19.  The head rotation is set, not accumulated.  On a rig with a head
    bone the bone ends up at half the tracked angles, in radians
    ([degrees * PI / 360]); a second rotation replaces the first; no other
    bone, no channel and not the animation state are touched. *)
Theorem head_rotation_overwrites (vrm : VRM) (first second : XYZ.t) :
  sameRig (applyHeadRotation (applyHeadRotation vrm first) second)
          (applyHeadRotation vrm second) /\
  (boneRotation vrm "head" <> None ->
   boneRotation (applyHeadRotation vrm first) "head"
   = Some (XYZ.mk (XYZ.x first * PI / 360) (XYZ.y first * PI / 360)
                  (XYZ.z first * PI / 360))) /\
  (forall bone, bone <> "head" ->
     boneRotation (applyHeadRotation vrm first) bone = boneRotation vrm bone) /\
  expressionManager (applyHeadRotation vrm first) = expressionManager vrm /\
  animationTime (applyHeadRotation vrm first) = animationTime vrm.
Proof.
  assert (forall d, degToRad (d * 0.5) = d * PI / 360) as Hhalf.
  { intros d. unfold degToRad, DEG2RAD. lra. }
  split; [| split; [| split; [| apply applyHeadRotation_others]]].
  - destruct (humanoid vrm) as [h|] eqn:Hh.
    + destruct (normalizedBones h !! "head") as [r0|] eqn:Hb.
      * rewrite (applyHeadRotation_head vrm h r0 first Hh Hb).
        rewrite (applyHeadRotation_head vrm h r0 second Hh Hb).
        unfold sameRig, applyHeadRotation, getNormalizedBoneNode, setNormalizedBoneNode.
        cbn. rewrite lookup_insert_eq. cbn. rewrite insert_insert_eq.
        split; [reflexivity | split; reflexivity].
      * rewrite !(applyHeadRotation_no_head vrm _ (or_intror (ex_intro _ h (conj Hh Hb)))).
        apply sameRig_refl.
    + rewrite !(applyHeadRotation_no_head vrm _ (or_introl Hh)).
      apply sameRig_refl.
  - unfold boneRotation, applyHeadRotation, getNormalizedBoneNode, setNormalizedBoneNode.
    destruct (humanoid vrm) as [h|] eqn:Hh; [| congruence].
    destruct (normalizedBones h !! "head") as [r0|] eqn:Hb; [| congruence].
    intros _. cbn. rewrite lookup_insert_eq, !Hhalf. reflexivity.
  - intros bone Hne.
    unfold boneRotation, applyHeadRotation, getNormalizedBoneNode, setNormalizedBoneNode.
    destruct (humanoid vrm) as [h|] eqn:Hh; [| now rewrite Hh].
    destruct (normalizedBones h !! "head") as [r0|] eqn:Hb; [| now rewrite Hh].
    cbn. now rewrite lookup_insert_ne by congruence.
Qed.

(** X20.  The two halves of the applier do not interfere: rotating the head
    and applying the expression weights lead to the same channels, bones
    and animation state in either order. *)
Theorem applier_parts_commute
  (vrm : VRM) (blendShapes : list (string * R)) (rot : XYZ.t) :
  sameRig (applyHeadRotation (applyBlendShapes vrm blendShapes) rot)
          (applyBlendShapes (applyHeadRotation vrm rot) blendShapes).
Proof.
  destruct (applyHeadRotation_others (applyBlendShapes vrm blendShapes) rot)
    as [Hem1 Ht1].
  destruct (applyHeadRotation_others vrm rot) as [Hem2 Ht2].
  destruct (applyBlendShapes_others vrm blendShapes) as [Hh3 Ht3].
  destruct (applyBlendShapes_others (applyHeadRotation vrm rot) blendShapes)
    as [Hh4 Ht4].
  split; [| split].
  - rewrite Hem1. apply applyBlendShapes_manager. now symmetry.
  - rewrite Hh4. now apply applyHeadRotation_humanoid.
  - congruence.
Qed.

End HeadProperties.

(** ** The render loop over time *)

Section LoopFacts.
Import JsMath Rig Avatar Spec Runs.
Local Open Scope R_scope.

Lemma getDelta_running_full (c : Clock.t) (now : R) :
  Clock.running c = true ->
  Clock.getDelta c now
  = ((now - Clock.oldTime c) / 1000,
     Clock.mk (Clock.autoStart c) true now
              (Clock.elapsedTime c + (now - Clock.oldTime c) / 1000)).
Proof. intros H. unfold Clock.getDelta. now rewrite H, andb_false_r. Qed.

Lemma getDelta_fresh (c : Clock.t) (now : R) :
  Clock.running c = false -> Clock.autoStart c = true ->
  Clock.getDelta c now = (0, Clock.mk true true now 0).
Proof. intros H1 H2. unfold Clock.getDelta. now rewrite H1, H2. Qed.

Lemma Math_round_integer (k : Z) : Math_round (IZR k) = k.
Proof. unfold Math_round. apply Zfloor_eq. lra. Qed.

Lemma count_updates_app (l1 l2 : list Call) :
  length (List.filter isUpdate (l1 ++ l2))
  = (length (List.filter isUpdate l1) + length (List.filter isUpdate l2))%nat.
Proof. now rewrite List.filter_app, List.length_app. Qed.

Lemma writes_are_not_updates (writes : list Call) :
  Forall isWrite writes -> List.filter isUpdate writes = [].
Proof.
  induction 1 as [|c rest Hc _ IH]; [reflexivity |].
  cbn [List.filter]. destruct c; cbn; try exact IH;
    destruct Hc as [H | H]; discriminate H.
Qed.

(** One tick on a loaded rig: one more [update] in the record of calls. *)
Lemma animate_counts (st : State) (vrm : VRM) (now1 now2 : R) :
  vrmRef st = Some vrm ->
  exists vrm',
    vrmRef (animate now1 now2 st) = Some vrm' /\
    length (List.filter isUpdate (calls vrm'))
    = S (length (List.filter isUpdate (calls vrm))).
Proof.
  intros Hvrm.
  destruct (animate_vrm st vrm now1 now2 Hvrm) as (deltaTime & Hanim).
  destruct (applyTracking_calls vrm (currentTrackingData st)) as (writes & Hw & Hf).
  eexists. split; [exact Hanim |].
  unfold update, logged. cbn [calls]. rewrite Hw, !count_updates_app.
  rewrite (writes_are_not_updates writes Hf). cbn. lia.
Qed.

Lemma animate_frame (st : State) (now1 now2 : R) :
  statsRef (animate now1 now2 st) = statsRef st /\
  canRender (animate now1 now2 st) = canRender st /\
  currentTrackingData (animate now1 now2 st) = currentTrackingData st /\
  renders (animate now1 now2 st)
  = (if canRender st then S (renders st) else renders st) /\
  (vrmRef st = None -> vrmRef (animate now1 now2 st) = None).
Proof.
  unfold animate.
  destruct (statsRef st).
  - destruct (Clock.getDelta (clockRef st) now1) as [delta c].
    destruct (Clock.getDelta c now2) as [deltaTime clock2].
    repeat split. cbn. now intros ->.
  - destruct (Clock.getDelta (clockRef st) now2) as [deltaTime clock2].
    repeat split. cbn. now intros ->.
Qed.

End LoopFacts.

Section LoopProperties.
Import JsMath Rig Avatar Spec Runs.
Local Open Scope R_scope.

(** X21.  How far a tick advances the rig.  On a running clock the tick
    leaves the clock at its last reading, having counted the whole time since
    the previous tick.  The rig, however, is advanced by the whole of that
    time only when no stats panel exists; with the panel in place the first
    reading serves the frame rate and the rig is advanced by the time between
    the two readings of the same tick. *)
Theorem rig_advance_per_tick
  (st : State) (vrm : VRM) (now1 now2 : R) :
  vrmRef st = Some vrm ->
  Clock.running (clockRef st) = true ->
  let st' := animate now1 now2 st in
  let previous := Clock.oldTime (clockRef st) in
  exists vrm',
    vrmRef st' = Some vrm' /\
    animationTime vrm'
    = animationTime vrm
      + (if statsRef st then (now2 - now1) / 1000 else (now2 - previous) / 1000) /\
    Clock.oldTime (clockRef st') = now2 /\
    Clock.running (clockRef st') = true /\
    Clock.elapsedTime (clockRef st')
    = Clock.elapsedTime (clockRef st) + (now2 - previous) / 1000.
Proof.
  intros Hvrm Hrun st' previous. subst st' previous. unfold animate.
  rewrite Hvrm. destruct (statsRef st).
  - rewrite (getDelta_running_full (clockRef st) now1 Hrun).
    rewrite getDelta_running_full by reflexivity.
    eexists. split; [reflexivity |].
    cbn [clockRef Clock.oldTime Clock.running Clock.elapsedTime update logged
         animationTime].
    rewrite applyTracking_animationTime. repeat split. lra.
  - rewrite (getDelta_running_full (clockRef st) now2 Hrun).
    eexists. split; [reflexivity |].
    cbn [clockRef Clock.oldTime Clock.running Clock.elapsedTime update logged
         animationTime].
    rewrite applyTracking_animationTime. repeat split.
Qed.

Lemma advance_with_the_stats_panel :
  Clock.running (clockRef (Scenario.canvas (Some Scenario.rig) None)) = true /\
  exists vrm',
    vrmRef (animate 16 16.1 (Scenario.canvas (Some Scenario.rig) None)) = Some vrm' /\
    animationTime vrm' = 0 + (16.1 - 16) / 1000.
Proof.
  split; [reflexivity |].
  destruct (rig_advance_per_tick (Scenario.canvas (Some Scenario.rig) None)
              Scenario.rig 16 16.1 eq_refl eq_refl) as (vrm' & H1 & H2 & _).
  exists vrm'. exact (conj H1 H2).
Defined.

(** X22.  The first tick.  On a clock that has not been started, the tick
    starts it: with the stats panel the observer receives [Infinity] and the
    rig is advanced by the time between the two readings; without the panel
    the rig is not advanced at all.  Either way the clock runs afterwards and
    has counted no time yet beyond that. *)
Theorem first_tick_starts_the_clock
  (st : State) (now1 now2 : R) :
  Clock.running (clockRef st) = false ->
  Clock.autoStart (clockRef st) = true ->
  let st' := animate now1 now2 st in
  Clock.running (clockRef st') = true /\
  Clock.oldTime (clockRef st') = now2 /\
  (statsRef st = true ->
   fpsUpdates st' = fpsUpdates st ++ [Infinity] /\
   forall vrm, vrmRef st = Some vrm ->
     exists vrm', vrmRef st' = Some vrm' /\
       animationTime vrm' = animationTime vrm + (now2 - now1) / 1000) /\
  (statsRef st = false ->
   fpsUpdates st' = fpsUpdates st /\
   forall vrm, vrmRef st = Some vrm ->
     exists vrm', vrmRef st' = Some vrm' /\
       animationTime vrm' = animationTime vrm + 0).
Proof.
  intros Hrun Hauto st'. subst st'. unfold animate.
  destruct (statsRef st).
  - rewrite (getDelta_fresh (clockRef st) now1 Hrun Hauto).
    rewrite getDelta_running_full by reflexivity.
    cbn [clockRef Clock.oldTime Clock.running fpsUpdates vrmRef].
    split; [reflexivity |]. split; [reflexivity |]. split; [| discriminate].
    intros _. rewrite fpsOfDelta_zero. split; [reflexivity |].
    intros vrm ->. eexists. split; [reflexivity |].
    cbn [update logged animationTime]. now rewrite applyTracking_animationTime.
  - rewrite (getDelta_fresh (clockRef st) now2 Hrun Hauto).
    cbn [clockRef Clock.oldTime Clock.running fpsUpdates vrmRef].
    split; [reflexivity |]. split; [reflexivity |]. split; [discriminate |].
    intros _. split; [reflexivity |].
    intros vrm ->. eexists. split; [reflexivity |].
    cbn [update logged animationTime]. now rewrite applyTracking_animationTime.
Qed.

Lemma first_tick_on_a_new_clock :
  Clock.running Clock.create = false /\
  fpsUpdates (animate 5 5.1 (mkState None Clock.create true true None [] 0))
  = [] ++ [Infinity].
Proof.
  split; [reflexivity |].
  apply (first_tick_starts_the_clock (mkState None Clock.create true true None [] 0)
           5 5.1 eq_refl eq_refl).
  reflexivity.
Defined.

(** X23.  The values the observer receives.  On a running clock and with the
    stats panel: a tick that comes exactly [1/k] seconds after the previous
    reading reports [k]; a tick that comes more than two seconds late
    reports 0; and no tick that comes after the previous reading reports a
    negative rate. *)
Theorem reported_rates
  (st : State) (now1 now2 : R) :
  statsRef st = true ->
  Clock.running (clockRef st) = true ->
  let previous := Clock.oldTime (clockRef st) in
  let st' := animate now1 now2 st in
  (forall k : Z, (0 < k)%Z -> now1 - previous = 1000 / IZR k ->
     fpsUpdates st' = fpsUpdates st ++ [Finite k]) /\
  (2000 < now1 - previous -> fpsUpdates st' = fpsUpdates st ++ [Finite 0]) /\
  (previous < now1 ->
   exists n, fpsUpdates st' = fpsUpdates st ++ [Finite n] /\ (0 <= n)%Z).
Proof.
  intros Hstats Hrun previous st'. subst st' previous.
  rewrite (animate_fps st now1 now2 Hstats), (getDelta_running _ _ Hrun).
  set (elapsed := (now1 - Clock.oldTime (clockRef st)) / 1000).
  split; [| split].
  - intros k Hk Hperiod.
    assert (0 < IZR k) as Hk' by (apply (IZR_lt 0); lia).
    assert (elapsed = / IZR k) as He.
    { subst elapsed. rewrite Hperiod. field. lra. }
    assert (elapsed <> 0) as Hne.
    { rewrite He. apply Rinv_neq_0_compat. lra. }
    rewrite (fpsOfDelta_nonzero _ Hne), He.
    replace (1 / / IZR k) with (IZR k) by (field; lra).
    now rewrite Math_round_integer.
  - intros Hlate.
    assert (2 < elapsed) as He by (subst elapsed; lra).
    rewrite fpsOfDelta_nonzero by lra.
    do 3 f_equal. unfold Math_round. apply Zfloor_eq.
    assert (0 < / elapsed) as Hi by (apply Rinv_0_lt_compat; lra).
    assert (/ elapsed < / 2) as Hi2 by (apply Rinv_lt_contravar; lra).
    unfold Rdiv. lra.
  - intros Hafter.
    assert (0 < elapsed) as He by (subst elapsed; lra).
    rewrite fpsOfDelta_nonzero by lra.
    eexists. split; [reflexivity |].
    unfold Math_round. apply Zfloor_lub.
    assert (0 < / elapsed) as Hi by (apply Rinv_0_lt_compat; lra).
    unfold Rdiv. lra.
Qed.

Lemma twenty_millisecond_tick :
  statsRef (Scenario.canvas None None) = true /\
  fpsUpdates (animate 20 20.1 (Scenario.canvas None None)) = [] ++ [Finite 50].
Proof.
  split; [reflexivity |].
  apply (proj1 (reported_rates (Scenario.canvas None None) 20 20.1 eq_refl eq_refl)
           50%Z).
  - reflexivity.
  - cbn. lra.
Defined.

(** X24.  Over any run of ticks with the stats panel in place, the observer
    is called once per tick and, when the canvas can render, the scene is
    drawn once per tick; with a rig loaded, [update] is called once per tick;
    the tracking cell is never changed by the loop. *)
Theorem one_report_and_one_update_per_tick
  (ticks : list (R * R)) (st : State) :
  statsRef st = true ->
  let st' := runTicks ticks st in
  length (fpsUpdates st') = (length (fpsUpdates st) + length ticks)%nat /\
  renders st'
  = (renders st + (if canRender st then length ticks else 0))%nat /\
  currentTrackingData st' = currentTrackingData st /\
  (vrmRef st = None -> vrmRef st' = None) /\
  (forall vrm, vrmRef st = Some vrm ->
     exists vrm',
       vrmRef st' = Some vrm' /\
       length (List.filter isUpdate (calls vrm'))
       = (length (List.filter isUpdate (calls vrm)) + length ticks)%nat).
Proof.
  revert st. induction ticks as [|[now1 now2] rest IH]; intros st Hstats.
  - cbn [runTicks fold_left length].
    split; [lia |]. split; [destruct (canRender st); lia |].
    split; [reflexivity |]. split; [auto |].
    intros vrm Hvrm. exists vrm. split; [exact Hvrm | lia].
  - cbn [runTicks fold_left fst snd length].
    destruct (animate_frame st now1 now2) as (Hs & Hc & Hd & Hr & Hn).
    specialize (IH (animate now1 now2 st)). rewrite Hs in IH.
    specialize (IH Hstats). cbn zeta in IH. unfold runTicks in IH.
    destruct IH as (IHf & IHr & IHd & IHn & IHu).
    rewrite (animate_fps st now1 now2 Hstats), length_app in IHf.
    split; [cbn [length] in IHf; lia |].
    split; [rewrite IHr, Hr, Hc; destruct (canRender st); lia |].
    split; [congruence |].
    split; [auto |].
    intros vrm Hvrm.
    destruct (animate_counts st vrm now1 now2 Hvrm) as (vrm1 & H1 & Hcount).
    destruct (IHu vrm1 H1) as (vrm' & H' & Hcount').
    exists vrm'. split; [exact H' | lia].
Qed.

Lemma three_ticks_three_reports :
  statsRef (Scenario.canvas (Some Scenario.rig) None) = true /\
  length (fpsUpdates (runTicks [(16, 16.1); (33, 33.1); (50, 50.1)]
                        (Scenario.canvas (Some Scenario.rig) None)))
  = (0 + 3)%nat.
Proof.
  split; [reflexivity |].
  apply (one_report_and_one_update_per_tick [(16, 16.1); (33, 33.1); (50, 50.1)]
           (Scenario.canvas (Some Scenario.rig) None) eq_refl).
Defined.

End LoopProperties.

(** ** The tracking cell of the canvas *)

Section CellFacts.
Import FaceTracking Runs.

Lemma deliver_cell (evs : list Event) :
  forall a : Avatar.State,
    Avatar.currentTrackingData (App.deliver a evs)
    = List.last (map Some (emittedBy evs)) (Avatar.currentTrackingData a) /\
    Avatar.vrmRef (App.deliver a evs) = Avatar.vrmRef a /\
    Avatar.clockRef (App.deliver a evs) = Avatar.clockRef a /\
    Avatar.fpsUpdates (App.deliver a evs) = Avatar.fpsUpdates a.
Proof.
  unfold App.deliver.
  induction evs as [|e rest IH]; intros a; [repeat split |].
  cbn [fold_left]. destruct e as [landmarks | | d]; try apply IH.
  destruct (IH (Avatar.handleFaceTrackingUpdate a d)) as (Hc & Hv & Hk & Hf).
  rewrite Hc, Hv, Hk, Hf. split; [| repeat split].
  change (emittedBy (OnUpdate d :: rest)) with ([d] ++ emittedBy rest).
  rewrite map_app, last_app_fold. reflexivity.
Qed.

Lemma trackingFrame_parts
  (solve : NormalizedLandmarkList -> SolveOutcome) (results : Results)
  (app : App.State) :
  App.tracker (App.trackingFrame solve results app)
  = fst (onResults solve true (App.tracker app) results) /\
  App.console (App.trackingFrame solve results app) = App.console app /\
  App.avatar (App.trackingFrame solve results app)
  = match snd (onResults solve true (App.tracker app) results) with
    | Some evs => App.deliver (App.avatar app) evs
    | None => App.avatar app
    end.
Proof.
  unfold App.trackingFrame.
  destruct (onResults solve true (App.tracker app) results) as [t [evs|]];
    repeat split.
Qed.

End CellFacts.

Section CellProperties.
Import FaceTracking Runs.


(** X26.  The tracking cell holds the last sample.  After any sequence of
    camera frames the cell of the canvas holds the last sample the hook
    emitted during the sequence, or what it held before when none was
    emitted; older samples are gone, and nothing is queued. *)
Theorem cell_holds_the_last_sample
  (solve : NormalizedLandmarkList -> SolveOutcome) (frames : list Results)
  (app : App.State) :
  let app' := trackFrames solve frames app in
  Avatar.currentTrackingData (App.avatar app')
  = List.last (map Some (emitted (run solve true (App.tracker app) frames)))
              (Avatar.currentTrackingData (App.avatar app)) /\
  App.tracker app' = finalState solve true (App.tracker app) frames /\
  App.console app' = App.console app.
Proof.
  revert app. induction frames as [|results rest IH]; intros app; [repeat split |].
  cbn zeta. unfold trackFrames. cbn [fold_left run finalState].
  destruct (trackingFrame_parts solve results app) as (Ht & Hc & Ha).
  destruct (IH (App.trackingFrame solve results app)) as (IHc & IHt & IHk).
  unfold trackFrames in IHc, IHt, IHk. rewrite IHc, IHt, IHk, Ht, Hc, Ha.
  destruct (onResults solve true (App.tracker app) results) as [t out].
  cbn [fst snd]. split; [| split; reflexivity].
  rewrite emitted_cons, map_app, last_app_fold. f_equal.
  destruct out as [evs|]; [| reflexivity].
  apply deliver_cell.
Qed.

End CellProperties.
